(** * resend-link worker: a shallow embedding of [src/index.ts]

    The worker answers [GET /?token=...]: it looks the request up in the edge
    cache, validates the two credentials of its environment, extracts and
    verifies the signed token, fetches the e-mail HTML from the remote
    provider, and answers with a cache lifetime derived from the token's
    expiry.

    Conventions of the embedding.
    - A JavaScript string is the sequence of its code units; the development
      covers code units below 256, one [ascii] each.
    - A JavaScript number is an integer ([Z]): timestamps are whole seconds
      and [Date.now()] is whole milliseconds.
    - Values of static type [unknown] are [JsValue]s.
    - The platform (URL parser, [jose], the Resend client, the edge cache's
      freshness rule) is a record of functions, [Platform]; nothing is
      assumed about them.
    - Mutable surroundings of a request (clock, edge cache, the provider's
      call log, the execution context's detached tasks) are the [World],
      threaded by a state monad. *)

From stdpp Require Import base strings list gmap pretty.
From Stdlib Require Import ZArith Lia Ascii String.

Local Open Scope Z_scope.
#[local] Set Warnings "-register-all".

(** ** JavaScript values and strings

    Functions, symbols and bigints are left out: to every test the worker
    applies ([typeof], comparison with [null] and [undefined], property
    access) they answer as a boolean does. *)

Inductive JsValue : Type :=
| JsUndefined
| JsNull
| JsBoolean (b : bool)
| JsNumber (n : Z)
| JsString (s : string)
| JsObject (props : list (string * JsValue)).

(** [typeof v] *)
Definition typeof (v : JsValue) : string :=
  match v with
  | JsUndefined => "undefined"
  | JsNull => "object"
  | JsBoolean _ => "boolean"
  | JsNumber _ => "number"
  | JsString _ => "string"
  | JsObject _ => "object"
  end.

Fixpoint lookupProp {A : Type} (k : string) (props : list (string * A)) : option A :=
  match props with
  | [] => None
  | (k', v) :: rest => if String.eqb k k' then Some v else lookupProp k rest
  end.

(** [v.k] for a [v] that is neither [null] nor [undefined]: an own property
    of an object, [undefined] otherwise. *)
Definition getProp (v : JsValue) (k : string) : JsValue :=
  match v with
  | JsObject props => default JsUndefined (lookupProp k props)
  | _ => JsUndefined
  end.

Definition isNullish (v : JsValue) : bool :=
  match v with
  | JsUndefined | JsNull => true
  | _ => false
  end.

(** White space and line terminators of [String.prototype.trim] among the
    code units below 256: TAB, LF, VT, FF, CR, SP and NBSP. *)
Definition isWhiteSpace (c : ascii) : bool :=
  let n := Z.of_N (N_of_ascii c) in
  ((9 <=? n) && (n <=? 13)) || (n =? 32) || (n =? 160).

Fixpoint trimStart (s : string) : string :=
  match s with
  | EmptyString => EmptyString
  | String c rest => if isWhiteSpace c then trimStart rest else s
  end.

Fixpoint trimEnd (s : string) : string :=
  match s with
  | EmptyString => EmptyString
  | String c rest =>
      match trimEnd rest with
      | EmptyString => if isWhiteSpace c then EmptyString else String c EmptyString
      | kept => String c kept
      end
  end.

Definition trim (s : string) : string := trimEnd (trimStart s).

(** A string that does not begin with white space. *)
Definition startsClean (s : string) : Prop :=
  match s with
  | EmptyString => True
  | String c _ => isWhiteSpace c = false
  end.

Definition strlen (s : string) : Z := Z.of_nat (String.length s).

(** [`${n}`] for an integer [n] (decimal digits, [-] for negatives; agrees
    with JavaScript below 10^21). *)
Definition numberToString (n : Z) : string := pretty n.

(** [textEncoder.encode(s)]: UTF-8, one or two bytes per code unit below 256. *)
Definition encodeCodeUnit (c : ascii) : list Z :=
  let n := Z.of_N (N_of_ascii c) in
  if n <? 128 then [n]
  else [Z.lor 192 (Z.shiftr n 6); Z.lor 128 (Z.land n 63)].

Fixpoint textEncode (s : string) : list Z :=
  match s with
  | EmptyString => []
  | String c rest => encodeCodeUnit c ++ textEncode rest
  end.

(** ** The Result type *)

Inductive HandlerResult (T : Type) : Type :=
| Success (value : T)
| Failure (status : Z) (message : string).

Arguments Success {T} value.
Arguments Failure {T} status message.

Definition success {T : Type} (value : T) : HandlerResult T := Success value.

Definition failure {T : Type} (status : Z) (message : string) : HandlerResult T :=
  Failure status message.

Definition ok {T : Type} (r : HandlerResult T) : bool :=
  match r with
  | Success _ => true
  | Failure _ _ => false
  end.

(** ** Requests, responses, environment *)

Record Request : Type := mkRequest { method : string; url : string }.

Record Response : Type := mkResponse {
  body : string;
  status : Z;
  headers : list (string * string)
}.

Fixpoint headersSet (name value : string) (hs : list (string * string))
  : list (string * string) :=
  match hs with
  | [] => [(name, value)]
  | (n, v) :: rest =>
      if String.eqb n name then (name, value) :: rest
      else (n, v) :: headersSet name value rest
  end.

Definition headersGet (name : string) (hs : list (string * string)) : option string :=
  lookupProp name hs.

Definition clone (r : Response) : Response :=
  mkResponse (body r) (status r) (headers r).

Record Env : Type := mkEnv {
  RESEND_API_KEY : string;
  RESEND_JWT_SECRET : string
}.

Record Credentials : Type := mkCredentials { apiKey : string; jwtSecret : string }.

Record Claims : Type := mkClaims {
  emailId : string;
  issuedAtSeconds : Z;
  expiresAtSeconds : Z
}.

(** ** Pure helpers of [index.ts] *)

Definition createCacheKey (request : Request) : Request :=
  mkRequest (method request) (url request).

Definition createErrorResponse (message : string) (status : Z) : Response :=
  mkResponse message status [("content-type", "text/plain; charset=utf-8")].

Definition createSuccessResponse (html : string) (ttlSeconds : Z) : Response :=
  let headers := [("content-type", "text/html; charset=utf-8")] in
  let headers :=
    if 0 <? ttlSeconds then
      headersSet "cache-control"
        ("public, max-age=" +:+ numberToString ttlSeconds +:+
         ", s-maxage=" +:+ numberToString ttlSeconds) headers
    else headersSet "cache-control" "no-store" headers in
  mkResponse html 200 headers.

Definition normalizeSecret (value : string) : HandlerResult string :=
  let trimmed := trim value in
  if strlen trimmed =? 0 then failure 500 "Server misconfigured"
  else success trimmed.

Definition validateEnv (env : Env) : HandlerResult Credentials :=
  match normalizeSecret (RESEND_API_KEY env) with
  | Failure st msg => Failure st msg
  | Success apiKeyValue =>
      match normalizeSecret (RESEND_JWT_SECRET env) with
      | Failure st msg => Failure st msg
      | Success jwtSecretValue => success (mkCredentials apiKeyValue jwtSecretValue)
      end
  end.

Definition isRecord (value : JsValue) : bool :=
  String.eqb (typeof value) "object" &&
  negb (match value with JsNull => true | _ => false end).

Definition isResendClientError (value : JsValue) : bool :=
  if negb (isRecord value) then false
  else
    let message := getProp value "message" in
    String.eqb (typeof message) "string".

Definition extractEmailId (payload : list (string * JsValue)) : HandlerResult string :=
  let candidate := getProp (JsObject payload) "email_id" in
  match candidate with
  | JsString s =>
      if 0 <? strlen s then success s
      else failure 400 "Token payload missing email_id"
  | _ => failure 400 "Token payload missing email_id"
  end.

(** ** The platform

    What the worker calls but does not define.  [searchParamsGet u k] is
    [new URL(u).searchParams.get(k)]; [jwtVerify token key] is the settled
    promise of jose's [jwtVerify]; [resendEmailsGet apiKey id] is the settled
    promise of [new Resend(apiKey).emails.get(id)] (an exception of the
    constructor counts as a rejection); [freshnessSeconds r] is the lifetime
    the edge cache grants a stored response from its cache-control
    directives. *)

Inductive JoseError : Type :=
| JWSInvalid                       (* malformed compact serialization *)
| JWSSignatureVerificationFailed   (* signature does not match the key *)
| JWTExpired                       (* "exp" claim is in the past *)
| JWTInvalid                       (* payload is not a JSON object *)
| JWTClaimValidationFailed         (* a registered claim has the wrong shape *)
| JOSEError.                       (* anything else thrown by the library *)

Inductive JoseOutcome : Type :=
| JoseResolves (payload : list (string * JsValue))
| JoseRejects (e : JoseError).

Inductive ProviderOutcome : Type :=
| ProviderResolves (result : JsValue)
| ProviderRejects.

Record Platform : Type := mkPlatform {
  searchParamsGet : string -> string -> option string;
  jwtVerify : string -> list Z -> JoseOutcome;
  resendEmailsGet : string -> string -> ProviderOutcome;
  freshnessSeconds : Response -> Z
}.

(** ** The world of a request and its monad *)

Record World : Type := mkWorld {
  now : Z;                                  (* Date.now(), milliseconds *)
  cache : gmap string (Response * Z);       (* caches.default: URL to entry, deadline *)
  resendCalls : list (string * string);     (* (apiKey, emailId) of every provider call *)
  pending : list (Request * Response)       (* cache writes handed to waitUntil *)
}.

Definition M (A : Type) : Type := World -> A * World.

Definition ret {A : Type} (a : A) : M A := fun w => (a, w).

Definition bind {A B : Type} (m : M A) (k : A -> M B) : M B :=
  fun w => let (a, w') := m w in k a w'.

Notation "'run' x <~ m ;; k" := (bind m (fun x => k))
  (at level 10, x name, m at level 99, k at level 200).

Definition dateNow : M Z := fun w => (now w, w).

(** [cache.match(key)]: the stored response while it is fresh. *)
Definition cacheMatch (key : Request) : M (option Response) :=
  fun w =>
    match cache w !! url key with
    | Some (r, deadline) => if now w <? deadline then (Some r, w) else (None, w)
    | None => (None, w)
    end.

(** [cache.put(key, response)], when the write is carried out. *)
Definition cachePut (P : Platform) (key : Request) (r : Response) (w : World) : World :=
  mkWorld (now w)
          (<[url key := (r, now w + 1000 * freshnessSeconds P r)]> (cache w))
          (resendCalls w) (pending w).

(** [c.executionCtx.waitUntil(cache.put(key, response))]: the write is
    detached from the response. *)
Definition waitUntilCachePut (key : Request) (r : Response) : M unit :=
  fun w => (tt, mkWorld (now w) (cache w) (resendCalls w) (pending w ++ [(key, r)])).

(** The provider call, recorded in the world. *)
Definition callResend (P : Platform) (key id : string) : M ProviderOutcome :=
  fun w =>
    (resendEmailsGet P key id,
     mkWorld (now w) (cache w) (resendCalls w ++ [(key, id)]) (pending w)).

(** ** Token verification, fetch, token extraction *)

(** Only [jwtVerify] can throw inside the [try]; its rejection, whatever the
    error, is the [catch]. *)
Definition resolveEmailId (P : Platform) (token jwtSecret : string)
  : HandlerResult Claims :=
  let secretBytes := textEncode jwtSecret in
  match jwtVerify P token secretBytes with
  | JoseRejects _ => failure 401 "Invalid or expired token"
  | JoseResolves payload =>
      match extractEmailId payload with
      | Failure st msg => Failure st msg
      | Success emailIdValue =>
          let iat := getProp (JsObject payload) "iat" in
          let exp := getProp (JsObject payload) "exp" in
          match iat, exp with
          | JsNumber iatValue, JsNumber expValue =>
              success (mkClaims emailIdValue iatValue expValue)
          | _, _ => failure 400 "Token missing required timestamps"
          end
      end
  end.

(** The call and everything after it sit in one [try]: a rejected call, or
    destructuring a [null] or [undefined] result, ends in the [catch]. *)
Definition fetchEmailHtml (P : Platform) (emailId apiKey : string)
  : M (HandlerResult string) :=
  run settled <~ callResend P apiKey emailId ;;
  ret
    match settled with
    | ProviderRejects => failure 502 "Unable to fetch email"
    | ProviderResolves result =>
        if isNullish result then failure 502 "Unable to fetch email"
        else
          let data := getProp result "data" in
          let error := getProp result "error" in
          if negb (isNullish error) then
            if isResendClientError error then
              match getProp error "message" with
              | JsString message => failure 502 message
              | _ => failure 502 "Unable to fetch email"
              end
            else failure 502 "Unable to fetch email"
          else if isNullish data then failure 404 "Email not found"
          else
            match getProp data "html" with
            | JsString htmlCandidate =>
                if strlen htmlCandidate =? 0 then failure 502 "Email body is unavailable"
                else success htmlCandidate
            | _ => failure 502 "Email body is unavailable"
            end
    end.

Definition extractTokenFromRequest (P : Platform) (request : Request)
  : HandlerResult string :=
  match searchParamsGet P (url request) "token" with
  | None => failure 400 "Token not provided"
  | Some token =>
      let trimmed := trim token in
      if strlen trimmed =? 0 then failure 400 "Token not provided"
      else success trimmed
  end.

(** ** The request pipeline: the handler of [app.get("/")] *)

Definition handler (P : Platform) (request : Request) (env : Env) : M Response :=
  let cacheKey := createCacheKey request in
  run cached <~ cacheMatch cacheKey ;;
  match cached with
  | Some hit => ret hit
  | None =>
      match validateEnv env with
      | Failure st msg => ret (createErrorResponse msg st)
      | Success creds =>
          match extractTokenFromRequest P request with
          | Failure st msg => ret (createErrorResponse msg st)
          | Success token =>
              match resolveEmailId P token (jwtSecret creds) with
              | Failure st msg => ret (createErrorResponse msg st)
              | Success claims =>
                  run emailHtmlResult <~ fetchEmailHtml P (emailId claims) (apiKey creds) ;;
                  match emailHtmlResult with
                  | Failure st msg => ret (createErrorResponse msg st)
                  | Success html =>
                      run nowMs <~ dateNow ;;
                      let maxAgeSeconds := expiresAtSeconds claims - nowMs / 1000 in
                      let response := createSuccessResponse html maxAgeSeconds in
                      run scheduled <~ (if 0 <? maxAgeSeconds
                            then waitUntilCachePut cacheKey (clone response)
                            else ret tt) ;;
                      ret response
                  end
              end
          end
      end
  end.

(** [waitOnExecutionContext]: the detached cache writes are carried out, in
    the order they were handed over. *)
Definition waitOnExecutionContext (P : Platform) (w : World) : World :=
  let w' := fold_left (fun acc task => cachePut P (fst task) (snd task) acc) (pending w) w in
  mkWorld (now w') (cache w') (resendCalls w') [].

(** One request as the runtime serves it: the handler, then its detached
    tasks. *)
Definition serve (P : Platform) (request : Request) (env : Env) (w : World)
  : Response * World :=
  let (response, w') := handler P request env w in
  (response, waitOnExecutionContext P w').

(** The clock moves on between requests. *)
Definition advance (t : Z) (w : World) : World :=
  mkWorld t (cache w) (resendCalls w) (pending w).

(** ** Worlds along the pipeline *)

(** The world once the provider has been called with [key] for [id]. *)
Definition afterFetch (key id : string) (w : World) : World :=
  mkWorld (now w) (cache w) (resendCalls w ++ [(key, id)]) (pending w).

(** The world once the response is built and, for a positive [ttl], its
    cache write is detached. *)
Definition afterRespond (request : Request) (response : Response) (ttl : Z) (w : World)
  : World :=
  if 0 <? ttl
  then mkWorld (now w) (cache w) (resendCalls w)
               (pending w ++ [(createCacheKey request, response)])
  else w.

(** ** Vocabulary of the specification *)

(** A claim that is present and a non-empty string. *)
Definition isNonEmptyString (v : JsValue) : bool :=
  match v with
  | JsString s => negb (String.eqb s "")
  | _ => false
  end.

(** A claim that is present and numeric. *)
Definition isNumber (v : JsValue) : bool :=
  match v with
  | JsNumber _ => true
  | _ => false
  end.

(** The string message of a structured provider error, if it has one. *)
Definition errorMessage (error : JsValue) : option string :=
  match error with
  | JsObject props =>
      match lookupProp "message" props with
      | Some (JsString m) => Some m
      | _ => None
      end
  | _ => None
  end.

(** A string that is empty once trimmed. *)
Definition isBlank (s : string) : bool := String.eqb (trim s) "".

(** One of the two credentials is blank. *)
Definition credentialBlank (env : Env) : bool :=
  isBlank (RESEND_API_KEY env) || isBlank (RESEND_JWT_SECRET env).

(** The token query parameter is absent or only white space. *)
Definition tokenMissing (P : Platform) (request : Request) : bool :=
  match searchParamsGet P (url request) "token" with
  | None => true
  | Some token => isBlank token
  end.

(** The edge cache holds no fresh entry for the request. *)
Definition cacheMiss (request : Request) (w : World) : Prop :=
  fst (cacheMatch (createCacheKey request) w) = None.

(** The request reached the respond stage: it missed the cache and every
    stage before the response succeeded, leaving [html] and the remaining
    lifetime [ttl = expiresAtSeconds - floor(now / 1000)]. *)
Definition fetchSucceeded (P : Platform) (request : Request) (env : Env) (w : World)
  (html : string) (ttl : Z) : Prop :=
  cacheMiss request w /\
  exists creds token claims,
    validateEnv env = Success creds /\
    extractTokenFromRequest P request = Success token /\
    resolveEmailId P token (jwtSecret creds) = Success claims /\
    fst (fetchEmailHtml P (emailId claims) (apiKey creds) w) = Success html /\
    ttl = expiresAtSeconds claims - now w / 1000.

(** ** A concrete platform, after the repository's test suite *)

Module Sample.

Definition env : Env := mkEnv "test-api-key" "test-secret".

Definition home : string := "https://example.com/".
Definition link : string := "https://example.com/?token=good".
Definition paddedLink : string := "https://example.com/?token=%20good%20".
Definition blankLink : string := "https://example.com/?token=+".

Definition payload : list (string * JsValue) :=
  [("email_id", JsString "email-123"); ("iat", JsNumber 1000); ("exp", JsNumber 1120)].

Definition platform : Platform :=
  mkPlatform
    (fun u k =>
       if String.eqb k "token" then
         if String.eqb u link then Some "good"
         else if String.eqb u paddedLink then Some " good "
         else if String.eqb u blankLink then Some " "
         else None
       else None)
    (fun token key =>
       if negb (bool_decide (key = textEncode "test-secret"))
       then JoseRejects JWSSignatureVerificationFailed
       else if String.eqb token "good" then JoseResolves payload
       else if String.eqb token "bare" then JoseResolves []
       else if String.eqb token "untimed"
            then JoseResolves [("email_id", JsString "email-123")]
       else if String.eqb token "expired" then JoseRejects JWTExpired
       else JoseRejects JWSInvalid)
    (fun key id =>
       if String.eqb id "email-123" then
         ProviderResolves
           (JsObject [("data", JsObject [("html", JsString "<p>email-123</p>")]);
                      ("error", JsNull)])
       else
         ProviderResolves
           (JsObject [("data", JsNull);
                      ("error", JsObject [("message", JsString "Email not found")])]))
    (fun _ => 120).

Definition get (u : string) : Request := mkRequest "GET" u.

(** An empty cache at second 1000. *)
Definition world : World := mkWorld 1000000 ∅ [] [].

(** Sixty seconds after [link] was served from [world]. *)
Definition warmWorld : World :=
  advance 1060000 (snd (serve platform (get link) env world)).

Definition noApiKeyEnv : Env := mkEnv "" "test-secret".
Definition blankSecretEnv : Env := mkEnv "test-api-key" "   ".

End Sample.

(** ** The token generator: the [generate-jwt] script

    The companion script reads [--secret], [--email-id] and [--expires-in]
    from its command line, and signs a token whose claims the worker reads
    back.  A thrown [Error] is a [ThrowsError] completion.  The arguments of
    each [console.log] and [console.error] call are kept as they are passed.
    [Number.parseInt] is exact up to 10^15; beyond that the embedding does
    not say what the script does ([None]). *)

Module GenerateJwt.

(** [ParsedArgs]; an absent property is [None]. *)
Record ParsedArgs : Type := mkParsedArgs {
  argSecret : option string;
  argEmailId : option string;
  argExpiresIn : option string
}.

Record ScriptOptions : Type := mkScriptOptions {
  secret : string;
  emailId : string;
  expiresInSeconds : Z
}.

Inductive Completion (A : Type) : Type :=
| Returns (value : A)
| ThrowsError (message : string).

Arguments Returns {A} value.
Arguments ThrowsError {A} message.

Definition defaultExpiresInSeconds : Z := 15 * 60.

(** [s.startsWith(prefix)] *)
Definition startsWith (s prefix : string) : bool := String.prefix prefix s.

(** [s.slice(n)] for a non-negative [n]. *)
Fixpoint slice (n : nat) (s : string) : string :=
  match n, s with
  | O, _ => s
  | S n', String _ rest => slice n' rest
  | S _, EmptyString => EmptyString
  end.

(** The assignment at the end of the loop body of [parseArgs]. *)
Definition assign (key next : string) (result : ParsedArgs) : ParsedArgs :=
  if String.eqb key "secret"
  then mkParsedArgs (Some next) (argEmailId result) (argExpiresIn result)
  else if String.eqb key "email-id"
  then mkParsedArgs (argSecret result) (Some next) (argExpiresIn result)
  else if String.eqb key "expires-in"
  then mkParsedArgs (argSecret result) (argEmailId result) (Some next)
  else result.

(** The loop of [parseArgs] from some index on: [argv] is what is left from
    that index, so [argv[index + 1]] is the head of the tail. *)
Fixpoint parseArgsFrom (result : ParsedArgs) (argv : list string) : ParsedArgs :=
  match argv with
  | [] => result
  | part :: rest =>
      if negb (startsWith part "--") then parseArgsFrom result rest
      else
        let key := slice 2 part in
        match rest with
        | [] => parseArgsFrom result rest
        | next :: _ =>
            if startsWith next "--" then parseArgsFrom result rest
            else parseArgsFrom (assign key next result) rest
        end
  end.

Definition parseArgs (argv : list string) : ParsedArgs :=
  parseArgsFrom (mkParsedArgs None None None) argv.

(** [Number.parseInt(s, 10)]: leading white space, an optional sign, the
    longest run of decimal digits; [NaN] without a digit. *)
Inductive ParsedInt : Type :=
| IntNaN
| IntExact (n : Z)
| IntInexact (negative : bool).

Definition digitValue (c : ascii) : option Z :=
  let n := Z.of_N (N_of_ascii c) in
  if (48 <=? n) && (n <=? 57) then Some (n - 48) else None.

Fixpoint leadingDigits (s : string) : list Z :=
  match s with
  | EmptyString => []
  | String c rest =>
      match digitValue c with
      | Some d => d :: leadingDigits rest
      | None => []
      end
  end.

Definition digitsValue (ds : list Z) : Z :=
  fold_left (fun acc d => 10 * acc + d) ds 0.

Definition parseInt10 (s : string) : ParsedInt :=
  let trimmed := trimStart s in
  let '(negative, unsigned) :=
    match trimmed with
    | String "-" rest => (true, rest)
    | String "+" rest => (false, rest)
    | _ => (false, trimmed)
    end in
  match leadingDigits unsigned with
  | [] => IntNaN
  | ds =>
      let magnitude := digitsValue ds in
      if magnitude <=? 10 ^ 15
      then IntExact (if negative then - magnitude else magnitude)
      else IntInexact negative
  end.

(** [parseOptions(args)] with [process.env.RESEND_JWT_SECRET = envSecret]. *)
Definition parseOptions (args : ParsedArgs) (envSecret : option string)
  : option (Completion ScriptOptions) :=
  let secret := match argSecret args with Some given => Some given | None => envSecret end in
  match secret with
  | None => Some (ThrowsError "Missing secret. Pass --secret or set RESEND_JWT_SECRET.")
  | Some secret =>
      if strlen (trim secret) =? 0
      then Some (ThrowsError "Missing secret. Pass --secret or set RESEND_JWT_SECRET.")
      else
        let emailId := default "" (argEmailId args) in
        if strlen (trim emailId) =? 0
        then Some (ThrowsError "Missing email id. Pass --email-id to continue.")
        else
          let expiresInRaw :=
            default (numberToString defaultExpiresInSeconds) (argExpiresIn args) in
          match parseInt10 expiresInRaw with
          | IntExact expiresInSeconds =>
              if expiresInSeconds <=? 0
              then Some (ThrowsError "expires-in must be a positive integer (seconds).")
              else Some (Returns (mkScriptOptions secret emailId expiresInSeconds))
          | IntNaN | IntInexact true =>
              Some (ThrowsError "expires-in must be a positive integer (seconds).")
          | IntInexact false => None
          end
  end.

(** The settled promise of [new SignJWT(payload).setProtectedHeader(header)
    ... .sign(key)]; a rejection carries the message of the thrown [Error],
    or nothing when what was thrown is no [Error]. *)
Inductive SignOutcome : Type :=
| SignResolves (token : string)
| SignRejects (message : option string).

Definition Signer : Type :=
  list (string * JsValue) -> list (string * JsValue) -> list Z -> SignOutcome.

(** What a run leaves behind: the payloads and keys it had signed, the
    arguments of its [console.log] and [console.error] calls, and
    [process.exitCode]. *)
Record Terminal : Type := mkTerminal {
  signCalls : list (list (string * JsValue) * list Z);
  stdout : list (list JsValue);
  stderr : list (list JsValue);
  exitCode : option Z
}.

(** [run()] with [process.argv = processArgv] at [Date.now() = nowMs]
    ([run] is a keyword of the monad's notation, hence the longer name). *)
Definition runScript (signJwt : Signer) (processArgv : list string)
  (envSecret : option string) (nowMs : Z) : option Terminal :=
  let parsedArgs := parseArgs (skipn 2 processArgv) in
  match parseOptions parsedArgs envSecret with
  | None => None
  | Some (ThrowsError message) =>
      Some (mkTerminal [] [] [[JsString message]] (Some 1))
  | Some (Returns options) =>
      let issuedAt := nowMs / 1000 in
      let payload :=
        [("email_id", JsString (emailId options));
         ("iat", JsNumber issuedAt);
         ("exp", JsNumber (issuedAt + expiresInSeconds options))] in
      let header := [("alg", JsString "HS256"); ("typ", JsString "JWT")] in
      let key := textEncode (secret options) in
      match signJwt payload header key with
      | SignResolves token =>
          Some (mkTerminal [(payload, key)]
                  [[JsString "Email ID:"; JsString (emailId options)];
                   [JsString "Issued At:"; JsNumber issuedAt];
                   [JsString "Expires At:";
                    JsNumber (issuedAt + expiresInSeconds options)];
                   [JsString "JWT:"; JsString token]]
                  [] None)
      | SignRejects (Some message) =>
          Some (mkTerminal [(payload, key)] [] [[JsString message]] (Some 1))
      | SignRejects None =>
          Some (mkTerminal [(payload, key)] [] [[JsString "Unknown error"]] (Some 1))
      end
  end.

(** A signer for the sample platform: it hands out the token the sample
    verifier accepts. *)
Definition sampleSigner : Signer :=
  fun payload header key =>
    if bool_decide (key = textEncode "test-secret") then SignResolves "good"
    else SignResolves "other".

Definition sampleArgv : list string :=
  ["bun"; "generate-jwt.ts"; "--secret"; "test-secret";
   "--email-id"; "email-123"; "--expires-in"; "120"].

End GenerateJwt.

(** The sample platform with a provider that reports an error. *)
Definition failingProviderPlatform : Platform :=
  mkPlatform (searchParamsGet Sample.platform) (jwtVerify Sample.platform)
    (fun _ _ =>
       ProviderResolves
         (JsObject [("data", JsNull);
                    ("error", JsObject [("message", JsString "Rate limit exceeded")])]))
    (freshnessSeconds Sample.platform).

(** A string of decimal digits only. *)
Fixpoint digitsOnly (s : string) : bool :=
  match s with
  | EmptyString => true
  | String c rest => bool_decide (is_Some (GenerateJwt.digitValue c)) && digitsOnly rest
  end.

(** The command line [args] with its [--expires-in] value replaced. *)
Definition withExpiresIn (raw : string) (args : GenerateJwt.ParsedArgs)
  : GenerateJwt.ParsedArgs :=
  GenerateJwt.mkParsedArgs (GenerateJwt.argSecret args) (GenerateJwt.argEmailId args)
    (Some raw).

(** [value] stands in [argv] right after [flag] and is no flag itself. *)
Definition followsFlag (flag value : string) (argv : list string) : Prop :=
  GenerateJwt.startsWith value "--" = false /\
  exists before after, argv = before ++ flag :: value :: after.

(** * Properties *)

(** ** The sample platform at work *)

Example sample_trim : trim "  good " = "good".
Proof. reflexivity. Qed.

Example sample_first_response :
  fst (serve Sample.platform (Sample.get Sample.link) Sample.env Sample.world)
  = mkResponse "<p>email-123</p>" 200
      [("content-type", "text/html; charset=utf-8");
       ("cache-control", "public, max-age=120, s-maxage=120")].
Proof. vm_compute. reflexivity. Qed.

Example sample_missing_token :
  fst (serve Sample.platform (Sample.get Sample.home) Sample.env Sample.world)
  = mkResponse "Token not provided" 400 [("content-type", "text/plain; charset=utf-8")].
Proof. vm_compute. reflexivity. Qed.

Example sample_near_expiry_not_cached :
  serve Sample.platform (Sample.get Sample.link) Sample.env (advance 1120000 Sample.world)
  = (mkResponse "<p>email-123</p>" 200
       [("content-type", "text/html; charset=utf-8"); ("cache-control", "no-store")],
     mkWorld 1120000 ∅ [("test-api-key", "email-123")] []).
Proof. vm_compute. reflexivity. Qed.

Example sample_fetch_hit :
  fst (fetchEmailHtml Sample.platform "email-123" "test-api-key" Sample.world)
  = Success "<p>email-123</p>".
Proof. reflexivity. Qed.

Example sample_fetch_error :
  fst (fetchEmailHtml Sample.platform "email-999" "test-api-key" Sample.world)
  = Failure 502 "Email not found".
Proof. reflexivity. Qed.

Example sample_secret_bytes : textEncode "test-secret" =
  [116; 101; 115; 116; 45; 115; 101; 99; 114; 101; 116].
Proof. reflexivity. Qed.

(** ** Strings *)

Lemma strlen_zero (s : string) : (strlen s =? 0) = String.eqb s "".
Proof. destruct s; reflexivity. Qed.

Lemma strlen_pos (s : string) : (0 <? strlen s) = negb (String.eqb s "").
Proof.
  destruct s as [|c s]; [reflexivity|].
  unfold strlen. change (String.eqb (String c s) "") with false.
  apply Z.ltb_lt. cbn [String.length]. lia.
Qed.

Lemma trimStart_clean (s : string) : startsClean (trimStart s).
Proof.
  induction s as [|c s IH]; [exact I|].
  cbn [trimStart]. destruct (isWhiteSpace c) eqn:Hc; [exact IH | exact Hc].
Qed.

Lemma trimStart_of_clean (s : string) : startsClean s -> trimStart s = s.
Proof.
  destruct s as [|c s]; [reflexivity|].
  cbn [startsClean trimStart]. intros ->. reflexivity.
Qed.

Lemma trimEnd_clean (s : string) : startsClean s -> startsClean (trimEnd s).
Proof.
  destruct s as [|c s]; [intros _; exact I|].
  cbn [startsClean trimEnd]. intros Hc.
  destruct (trimEnd s); [rewrite Hc|]; exact Hc.
Qed.

Lemma trimEnd_idempotent (s : string) : trimEnd (trimEnd s) = trimEnd s.
Proof.
  induction s as [|c s IH]; [reflexivity|].
  cbn [trimEnd]. destruct (trimEnd s) as [|d kept] eqn:Hkept.
  - destruct (isWhiteSpace c) eqn:Hc; [reflexivity|].
    cbn [trimEnd]. rewrite Hc. reflexivity.
  - change (trimEnd (String c (String d kept)))
      with (match trimEnd (String d kept) with
            | EmptyString => if isWhiteSpace c then EmptyString else String c EmptyString
            | String d' kept' => String c (String d' kept')
            end).
    rewrite IH. reflexivity.
Qed.

Lemma trim_idempotent (s : string) : trim (trim s) = trim s.
Proof.
  unfold trim.
  rewrite (trimStart_of_clean (trimEnd (trimStart s))).
  - apply trimEnd_idempotent.
  - apply trimEnd_clean, trimStart_clean.
Qed.

Lemma isBlank_trim (s : string) : isBlank (trim s) = isBlank s.
Proof. unfold isBlank. rewrite trim_idempotent. reflexivity. Qed.

(** Trimming removes nothing but white space: the result is clean at both
    ends, and a string of white space only is blank. *)
Lemma isBlank_cons (c : ascii) (s : string) :
  isBlank (String c s) = isWhiteSpace c && isBlank s.
Proof.
  unfold isBlank, trim. cbn [trimStart].
  destruct (isWhiteSpace c) eqn:Hc; [reflexivity|].
  cbn [trimEnd]. destruct (trimEnd s); [rewrite Hc|]; reflexivity.
Qed.

(** ** Token verification *)

Lemma extractEmailId_spec (payload : list (string * JsValue)) :
  extractEmailId payload =
  match getProp (JsObject payload) "email_id" with
  | JsString s =>
      if String.eqb s "" then Failure 400 "Token payload missing email_id" else Success s
  | _ => Failure 400 "Token payload missing email_id"
  end.
Proof.
  unfold extractEmailId.
  destruct (getProp (JsObject payload) "email_id"); try reflexivity.
  rewrite strlen_pos. destruct (String.eqb s ""); reflexivity.
Qed.

(** C3. Whatever makes the verification library reject the token (a
    signature that does not match, a malformed structure, an expiry in the
    past, or anything else it throws), [resolveEmailId] returns the one
    failure 401 "Invalid or expired token". *)
Theorem rejected_token_is_401 (P : Platform) (token secret : string) (e : JoseError) :
  jwtVerify P token (textEncode secret) = JoseRejects e ->
  resolveEmailId P token secret = Failure 401 "Invalid or expired token".
Proof.
  intros Hrej. unfold resolveEmailId. rewrite Hrej. reflexivity.
Qed.

Lemma rejected_token_is_401_witness :
  resolveEmailId Sample.platform "good" "other-secret"
    = Failure 401 "Invalid or expired token" /\
  resolveEmailId Sample.platform "not.a.token" "test-secret"
    = Failure 401 "Invalid or expired token" /\
  resolveEmailId Sample.platform "expired" "test-secret"
    = Failure 401 "Invalid or expired token".
Proof.
  split; [|split].
  - apply (rejected_token_is_401 Sample.platform "good" "other-secret"
             JWSSignatureVerificationFailed).
    vm_compute. reflexivity.
  - apply (rejected_token_is_401 Sample.platform "not.a.token" "test-secret" JWSInvalid).
    vm_compute. reflexivity.
  - apply (rejected_token_is_401 Sample.platform "expired" "test-secret" JWTExpired).
    vm_compute. reflexivity.
Defined.

(** C6. For a token the verification library accepts, the payload is
    validated by two checks with distinct failures: a subject claim
    [email_id] that is absent or not a non-empty string gives 400 "Token
    payload missing email_id"; past that check, an [iat] or [exp] that is
    absent or not a number gives 400 "Token missing required timestamps";
    when both checks pass the three claims are returned. *)
Theorem payload_validation (P : Platform) (token secret : string)
  (payload : list (string * JsValue)) :
  jwtVerify P token (textEncode secret) = JoseResolves payload ->
  let subject := getProp (JsObject payload) "email_id" in
  let iat := getProp (JsObject payload) "iat" in
  let exp := getProp (JsObject payload) "exp" in
  (isNonEmptyString subject = false ->
   resolveEmailId P token secret = Failure 400 "Token payload missing email_id") /\
  (isNonEmptyString subject = true ->
   isNumber iat && isNumber exp = false ->
   resolveEmailId P token secret = Failure 400 "Token missing required timestamps") /\
  (forall (id : string) (issued expires : Z),
     subject = JsString id -> id <> "" ->
     iat = JsNumber issued -> exp = JsNumber expires ->
     resolveEmailId P token secret = Success (mkClaims id issued expires)).
Proof.
  intros Hres subject iat exp. unfold resolveEmailId. rewrite Hres.
  rewrite extractEmailId_spec. fold subject. fold iat. fold exp.
  repeat split.
  - intros Hsub. destruct subject; try reflexivity.
    simpl in Hsub. destruct (String.eqb s ""); [reflexivity | discriminate].
  - intros Hsub Hts. destruct subject; try discriminate.
    simpl in Hsub. destruct (String.eqb s ""); [discriminate|].
    destruct iat, exp; try reflexivity; discriminate.
  - intros id issued expires Hsub Hne Hiat Hexp. rewrite Hsub, Hiat, Hexp.
    destruct (String.eqb_spec id ""); [contradiction | reflexivity].
Qed.

Lemma payload_validation_witness :
  resolveEmailId Sample.platform "good" "test-secret"
    = Success (mkClaims "email-123" 1000 1120) /\
  resolveEmailId Sample.platform "untimed" "test-secret"
    = Failure 400 "Token missing required timestamps".
Proof.
  split.
  - apply (proj2 (proj2 (payload_validation Sample.platform "good" "test-secret"
                           Sample.payload eq_refl)) "email-123" 1000 1120);
      [reflexivity | discriminate | reflexivity | reflexivity].
  - apply (proj1 (proj2 (payload_validation Sample.platform "untimed" "test-secret"
                           [("email_id", JsString "email-123")] eq_refl)));
      reflexivity.
Defined.

(** C9. For a token the verification library accepts whose payload has
    neither a non-empty string [email_id] nor numeric [iat] and [exp], the
    failure is 400 "Token payload missing email_id": the subject check comes
    first. *)
Theorem subject_check_precedes_timestamps (P : Platform) (token secret : string)
  (payload : list (string * JsValue)) :
  jwtVerify P token (textEncode secret) = JoseResolves payload ->
  isNonEmptyString (getProp (JsObject payload) "email_id") = false ->
  isNumber (getProp (JsObject payload) "iat")
    && isNumber (getProp (JsObject payload) "exp") = false ->
  resolveEmailId P token secret = Failure 400 "Token payload missing email_id".
Proof.
  intros Hres Hsub _. unfold resolveEmailId. rewrite Hres, extractEmailId_spec.
  destruct (getProp (JsObject payload) "email_id"); try reflexivity.
  simpl in Hsub. destruct (String.eqb s ""); [reflexivity | discriminate].
Qed.

Lemma subject_check_precedes_timestamps_witness :
  resolveEmailId Sample.platform "bare" "test-secret"
    = Failure 400 "Token payload missing email_id".
Proof.
  apply (subject_check_precedes_timestamps Sample.platform "bare" "test-secret" []);
    reflexivity.
Defined.

Lemma resolveEmailId_failure (P : Platform) (token secret : string)
  (st : Z) (msg : string) :
  resolveEmailId P token secret = Failure st msg -> st = 400 \/ st = 401.
Proof.
  unfold resolveEmailId.
  destruct (jwtVerify P token (textEncode secret)) as [payload|e].
  - rewrite extractEmailId_spec.
    destruct (getProp (JsObject payload) "email_id") as [| | b | n | s | props];
      try (intros [= <- _]; left; reflexivity).
    destruct (String.eqb s ""); [intros [= <- _]; left; reflexivity|].
    destruct (getProp (JsObject payload) "iat"), (getProp (JsObject payload) "exp");
      try discriminate; intros [= <- _]; left; reflexivity.
  - intros [= <- _]. right. reflexivity.
Qed.

(** ** The resource fetcher *)

Lemma fetchEmailHtml_run (P : Platform) (id key : string) (w : World) :
  fetchEmailHtml P id key w = (fst (fetchEmailHtml P id key w), afterFetch key id w).
Proof. reflexivity. Qed.

Lemma isResendClientError_message (error : JsValue) :
  (if isResendClientError error
   then match getProp error "message" with
        | JsString message => Failure 502 message
        | _ => Failure 502 "Unable to fetch email"
        end
   else @Failure string 502 "Unable to fetch email")
  = match errorMessage error with
    | Some m => Failure 502 m
    | None => Failure 502 "Unable to fetch email"
    end.
Proof.
  destruct error as [| | b | n | s | props]; try reflexivity.
  unfold isResendClientError, errorMessage, getProp. simpl.
  destruct (lookupProp "message" props) as [[| | b | n | s | q]|]; reflexivity.
Qed.

(** The result of [fetchEmailHtml], by the provider's answer. *)
Lemma fetchEmailHtml_result (P : Platform) (id key : string) (w : World) :
  fst (fetchEmailHtml P id key w) =
  match resendEmailsGet P key id with
  | ProviderRejects => Failure 502 "Unable to fetch email"
  | ProviderResolves result =>
      if isNullish result then Failure 502 "Unable to fetch email"
      else if isNullish (getProp result "error") then
        if isNullish (getProp result "data") then Failure 404 "Email not found"
        else
          match getProp (getProp result "data") "html" with
          | JsString html =>
              if String.eqb html "" then Failure 502 "Email body is unavailable"
              else Success html
          | _ => Failure 502 "Email body is unavailable"
          end
      else
        match errorMessage (getProp result "error") with
        | Some m => Failure 502 m
        | None => Failure 502 "Unable to fetch email"
        end
  end.
Proof.
  unfold fetchEmailHtml, bind, callResend, ret, failure, success. cbn [fst].
  destruct (resendEmailsGet P key id) as [result|]; [|reflexivity].
  destruct (isNullish result); [reflexivity|].
  destruct (isNullish (getProp result "error")); cbn [negb].
  - destruct (isNullish (getProp result "data")); [reflexivity|].
    destruct (getProp (getProp result "data") "html"); try reflexivity.
    rewrite strlen_zero. reflexivity.
  - apply isResendClientError_message.
Qed.

Lemma fetchEmailHtml_shape (P : Platform) (id key : string) (w : World) :
  (exists html, fst (fetchEmailHtml P id key w) = Success html /\ html <> "") \/
  (exists m, fst (fetchEmailHtml P id key w) = Failure 502 m) \/
  fst (fetchEmailHtml P id key w) = Failure 404 "Email not found".
Proof.
  rewrite fetchEmailHtml_result.
  destruct (resendEmailsGet P key id) as [result|]; [|right; left; eexists; reflexivity].
  destruct (isNullish result); [right; left; eexists; reflexivity|].
  destruct (isNullish (getProp result "error")).
  - destruct (isNullish (getProp result "data")); [right; right; reflexivity|].
    destruct (getProp (getProp result "data") "html") as [| | b | n | s | props];
      try (right; left; eexists; reflexivity).
    destruct (String.eqb_spec s "").
    + right; left; eexists; reflexivity.
    + left. exists s. split; [reflexivity | assumption].
  - destruct (errorMessage (getProp result "error"));
      right; left; eexists; reflexivity.
Qed.

Lemma fetchEmailHtml_failure (P : Platform) (id key : string) (w : World)
  (st : Z) (msg : string) :
  fst (fetchEmailHtml P id key w) = Failure st msg -> st = 502 \/ st = 404.
Proof.
  intros Hfail.
  destruct (fetchEmailHtml_shape P id key w) as [[html [H _]]|[[m H]|H]];
    rewrite H in Hfail; [discriminate | |];
    injection Hfail as <- _; [left | right]; reflexivity.
Qed.

(** C5. [fetchEmailHtml] always returns a Result: a non-empty HTML string,
    or a failure 502 or 404.  A rejected call (a transport exception) gives
    502 with the generic message; a reported error gives 502 with its string
    message if it has one and with the generic message if not; without an
    error, absent data gives 404 "Email not found", data whose [html] is
    missing, not a string or empty gives 502, and otherwise the HTML is the
    success value. *)
Theorem fetchEmailHtml_normalizes (P : Platform) (id key : string) (w : World) :
  let r := fst (fetchEmailHtml P id key w) in
  let outcome := resendEmailsGet P key id in
  ((exists html, r = Success html /\ html <> "") \/
   (exists m, r = Failure 502 m) \/ r = Failure 404 "Email not found") /\
  (outcome = ProviderRejects -> r = Failure 502 "Unable to fetch email") /\
  (forall result, outcome = ProviderResolves result ->
     let error := getProp result "error" in
     let data := getProp result "data" in
     (isNullish result = true -> r = Failure 502 "Unable to fetch email") /\
     (forall m, isNullish result = false -> isNullish error = false ->
        errorMessage error = Some m -> r = Failure 502 m) /\
     (isNullish result = false -> isNullish error = false ->
        errorMessage error = None -> r = Failure 502 "Unable to fetch email") /\
     (isNullish result = false -> isNullish error = true -> isNullish data = true ->
        r = Failure 404 "Email not found") /\
     (isNullish result = false -> isNullish error = true -> isNullish data = false ->
        isNonEmptyString (getProp data "html") = false ->
        r = Failure 502 "Email body is unavailable") /\
     (forall html, isNullish result = false -> isNullish error = true ->
        isNullish data = false -> getProp data "html" = JsString html -> html <> "" ->
        r = Success html)).
Proof.
  cbv zeta. split; [apply fetchEmailHtml_shape|].
  rewrite fetchEmailHtml_result.
  destruct (resendEmailsGet P key id) as [result|].
  2:{ split; [reflexivity | intros result Hres; discriminate]. }
  split; [discriminate|].
  intros result' Hres. injection Hres as <-.
  repeat split.
  - intros ->. reflexivity.
  - intros m -> -> ->. reflexivity.
  - intros -> -> ->. reflexivity.
  - intros -> -> ->. reflexivity.
  - intros -> -> -> Hhtml.
    destruct (getProp (getProp result "data") "html") as [| | b | n | s | props];
      try reflexivity.
    cbn [isNonEmptyString] in Hhtml.
    destruct (String.eqb s ""); [reflexivity | discriminate].
  - intros html -> -> -> -> Hne.
    destruct (String.eqb_spec html ""); [contradiction | reflexivity].
Qed.

(** ** Stages before the fetch *)

Lemma normalizeSecret_spec (value : string) :
  normalizeSecret value =
  if isBlank value then Failure 500 "Server misconfigured" else Success (trim value).
Proof. unfold normalizeSecret, isBlank. rewrite strlen_zero. reflexivity. Qed.

Lemma validateEnv_spec (env : Env) :
  validateEnv env =
  if credentialBlank env then Failure 500 "Server misconfigured"
  else Success (mkCredentials (trim (RESEND_API_KEY env)) (trim (RESEND_JWT_SECRET env))).
Proof.
  unfold validateEnv, credentialBlank. rewrite !normalizeSecret_spec.
  destruct (isBlank (RESEND_API_KEY env)), (isBlank (RESEND_JWT_SECRET env)); reflexivity.
Qed.

Lemma validateEnv_failure (env : Env) (st : Z) (msg : string) :
  validateEnv env = Failure st msg -> st = 500 /\ msg = "Server misconfigured".
Proof.
  rewrite validateEnv_spec. destruct (credentialBlank env); [|discriminate].
  intros [= <- <-]. split; reflexivity.
Qed.

Lemma extractTokenFromRequest_spec (P : Platform) (request : Request) :
  extractTokenFromRequest P request =
  match searchParamsGet P (url request) "token" with
  | None => Failure 400 "Token not provided"
  | Some token =>
      if isBlank token then Failure 400 "Token not provided" else Success (trim token)
  end.
Proof.
  unfold extractTokenFromRequest, isBlank.
  destruct (searchParamsGet P (url request) "token"); [|reflexivity].
  rewrite strlen_zero. reflexivity.
Qed.

Lemma extractTokenFromRequest_missing (P : Platform) (request : Request) :
  tokenMissing P request = true ->
  extractTokenFromRequest P request = Failure 400 "Token not provided".
Proof.
  rewrite extractTokenFromRequest_spec. unfold tokenMissing.
  destruct (searchParamsGet P (url request) "token"); [|reflexivity].
  intros ->. reflexivity.
Qed.

Lemma extractTokenFromRequest_failure (P : Platform) (request : Request)
  (st : Z) (msg : string) :
  extractTokenFromRequest P request = Failure st msg ->
  st = 400 /\ msg = "Token not provided".
Proof.
  rewrite extractTokenFromRequest_spec.
  destruct (searchParamsGet P (url request) "token") as [token|].
  - destruct (isBlank token); [|discriminate]. intros [= <- <-]. split; reflexivity.
  - intros [= <- <-]. split; reflexivity.
Qed.

(** ** The pipeline, stage by stage *)

Lemma clone_id (r : Response) : clone r = r.
Proof. destruct r; reflexivity. Qed.

Lemma cacheMatch_run (key : Request) (w : World) :
  cacheMatch key w = (fst (cacheMatch key w), w).
Proof.
  unfold cacheMatch. destruct (cache w !! url key) as [[r deadline]|]; [|reflexivity].
  destruct (now w <? deadline); reflexivity.
Qed.

Lemma headers_of_success (html : string) (ttl : Z) :
  headers (createSuccessResponse html ttl) =
  [("content-type", "text/html; charset=utf-8");
   ("cache-control",
    if 0 <? ttl
    then "public, max-age=" +:+ numberToString ttl +:+ ", s-maxage=" +:+ numberToString ttl
    else "no-store")].
Proof. unfold createSuccessResponse. destruct (0 <? ttl); reflexivity. Qed.

Lemma cache_control_of_success (html : string) (ttl : Z) :
  0 < ttl ->
  headersGet "cache-control" (headers (createSuccessResponse html ttl)) <> Some "no-store".
Proof.
  intros Hpos. apply Z.ltb_lt in Hpos. rewrite headers_of_success, Hpos.
  cbn. discriminate.
Qed.

Lemma app_one_neq {A : Type} (l : list A) (x : A) : l = l ++ [x] -> False.
Proof.
  intros H. apply (f_equal (@List.length A)) in H.
  rewrite length_app in H. cbn [List.length] in H. lia.
Qed.

(** Closes the three frame goals of a stage that ended in a failure whose
    status is known. *)
Ltac stage_failed := repeat split; intros _; discriminate.

Section Pipeline.

Variable P : Platform.
Variable request : Request.
Variable env : Env.
Variable w : World.

Lemma handler_hit (hit : Response) :
  fst (cacheMatch (createCacheKey request) w) = Some hit ->
  handler P request env w = (hit, w).
Proof.
  intros Hhit. unfold handler, bind. rewrite cacheMatch_run, Hhit. reflexivity.
Qed.

Lemma handler_miss :
  cacheMiss request w ->
  handler P request env w =
  match validateEnv env with
  | Failure st msg => (createErrorResponse msg st, w)
  | Success creds =>
      match extractTokenFromRequest P request with
      | Failure st msg => (createErrorResponse msg st, w)
      | Success token =>
          match resolveEmailId P token (jwtSecret creds) with
          | Failure st msg => (createErrorResponse msg st, w)
          | Success claims =>
              let fetched := afterFetch (apiKey creds) (emailId claims) w in
              match fst (fetchEmailHtml P (emailId claims) (apiKey creds) w) with
              | Failure st msg => (createErrorResponse msg st, fetched)
              | Success html =>
                  let ttl := expiresAtSeconds claims - now w / 1000 in
                  let response := createSuccessResponse html ttl in
                  (response, afterRespond request response ttl fetched)
              end
          end
      end
  end.
Proof.
  intros Hmiss. unfold cacheMiss in Hmiss. unfold handler, bind.
  rewrite cacheMatch_run, Hmiss.
  destruct (validateEnv env) as [creds|]; [|reflexivity].
  destruct (extractTokenFromRequest P request) as [token|]; [|reflexivity].
  destruct (resolveEmailId P token (jwtSecret creds)) as [claims|]; [|reflexivity].
  rewrite fetchEmailHtml_run.
  destruct (fst (fetchEmailHtml P (emailId claims) (apiKey creds) w)) as [html|];
    [|reflexivity].
  cbv zeta. unfold dateNow, afterRespond. rewrite clone_id.
  change (now (afterFetch (apiKey creds) (emailId claims) w)) with (now w).
  destruct (0 <? expiresAtSeconds claims - now w / 1000); reflexivity.
Qed.

Lemma fetchSucceeded_functional (html1 html2 : string) (ttl1 ttl2 : Z) :
  fetchSucceeded P request env w html1 ttl1 ->
  fetchSucceeded P request env w html2 ttl2 ->
  html1 = html2 /\ ttl1 = ttl2.
Proof.
  intros [_ (c1 & t1 & k1 & He1 & Ht1 & Hr1 & Hf1 & ->)]
         [_ (c2 & t2 & k2 & He2 & Ht2 & Hr2 & Hf2 & ->)].
  rewrite He1 in He2. injection He2 as <-.
  rewrite Ht1 in Ht2. injection Ht2 as <-.
  rewrite Hr1 in Hr2. injection Hr2 as <-.
  rewrite Hf1 in Hf2. injection Hf2 as <-.
  split; reflexivity.
Qed.

Lemma fetchSucceeded_or_not :
  (exists html ttl, fetchSucceeded P request env w html ttl) \/
  (forall html ttl, ~ fetchSucceeded P request env w html ttl).
Proof.
  unfold fetchSucceeded, cacheMiss.
  destruct (fst (cacheMatch (createCacheKey request) w)) as [hit|].
  { right. intros html ttl [H _]. discriminate. }
  destruct (validateEnv env) as [creds|st msg].
  2:{ right. intros html ttl [_ (c & t & k & H & _)]. discriminate. }
  destruct (extractTokenFromRequest P request) as [token|st msg].
  2:{ right. intros html ttl [_ (c & t & k & _ & H & _)]. discriminate. }
  destruct (resolveEmailId P token (jwtSecret creds)) as [claims|st msg] eqn:Hres.
  2:{ right. intros html ttl [_ (c & t & k & [= <-] & [= <-] & H & _)].
      rewrite Hres in H. discriminate. }
  destruct (fst (fetchEmailHtml P (emailId claims) (apiKey creds) w))
    as [html|st msg] eqn:Hfetch.
  2:{ right. intros html ttl [_ (c & t & k & [= <-] & [= <-] & H & Hf & _)].
      rewrite Hres in H. injection H as <-. rewrite Hfetch in Hf. discriminate. }
  left. exists html, (expiresAtSeconds claims - now w / 1000).
  split; [reflexivity|]. exists creds, token, claims. repeat split; assumption.
Qed.

(** A request that reaches the respond stage: its response and world. *)
Lemma handler_respond (html : string) (ttl : Z) :
  fetchSucceeded P request env w html ttl ->
  exists key id,
    handler P request env w =
    (createSuccessResponse html ttl,
     afterRespond request (createSuccessResponse html ttl) ttl (afterFetch key id w)).
Proof.
  intros [Hmiss (creds & token & claims & Henv & Htok & Hres & Hfetch & ->)].
  exists (apiKey creds), (emailId claims).
  rewrite (handler_miss Hmiss), Henv, Htok, Hres, Hfetch. reflexivity.
Qed.

(** A request that does not reach it leaves cache and detached tasks alone,
    and on a miss its status is not 200. *)
Lemma handler_no_respond :
  (forall html ttl, ~ fetchSucceeded P request env w html ttl) ->
  cache (snd (handler P request env w)) = cache w /\
  pending (snd (handler P request env w)) = pending w /\
  (cacheMiss request w -> status (fst (handler P request env w)) <> 200).
Proof.
  intros Hnot.
  destruct (fst (cacheMatch (createCacheKey request) w)) as [hit|] eqn:Hlook.
  { rewrite (handler_hit _ Hlook). repeat split.
    unfold cacheMiss. rewrite Hlook. discriminate. }
  assert (Hmiss : cacheMiss request w) by exact Hlook.
  rewrite (handler_miss Hmiss).
  destruct (validateEnv env) as [creds|st msg] eqn:Henv.
  2:{ apply validateEnv_failure in Henv as [-> _]. stage_failed. }
  destruct (extractTokenFromRequest P request) as [token|st msg] eqn:Htok.
  2:{ apply extractTokenFromRequest_failure in Htok as [-> _]. stage_failed. }
  destruct (resolveEmailId P token (jwtSecret creds)) as [claims|st msg] eqn:Hres.
  2:{ apply resolveEmailId_failure in Hres as [-> | ->]; stage_failed. }
  destruct (fst (fetchEmailHtml P (emailId claims) (apiKey creds) w))
    as [html|st msg] eqn:Hfetch.
  2:{ apply fetchEmailHtml_failure in Hfetch as [-> | ->]; stage_failed. }
  exfalso. apply (Hnot html (expiresAtSeconds claims - now w / 1000)).
  split; [exact Hmiss|]. exists creds, token, claims. repeat split; assumption.
Qed.

End Pipeline.

Arguments handler_hit P [request] env [w hit] _.
Arguments handler_miss P [request] env [w] _.
Arguments fetchSucceeded_functional {P request env w html1 html2 ttl1 ttl2} _ _.
Arguments handler_respond {P request env w html ttl} _.
Arguments handler_no_respond {P request env w} _.

(** ** Cache policy and response builder *)

Lemma sample_fetchSucceeded :
  fetchSucceeded Sample.platform (Sample.get Sample.link) Sample.env Sample.world
    "<p>email-123</p>" 120.
Proof.
  split; [reflexivity|].
  exists (mkCredentials "test-api-key" "test-secret"), "good",
         (mkClaims "email-123" 1000 1120).
  repeat split.
Qed.

(** C1. For every request that reaches the respond stage (a successful
    fetch), with [ttl = expiresAtSeconds - floor(now / 1000)]: the response
    has status 200, the HTML as body and content-type "text/html;
    charset=utf-8"; its cache-control is exactly "public, max-age=ttl,
    s-maxage=ttl" when [ttl > 0] and exactly "no-store" when [ttl <= 0]. *)
Theorem success_response_policy (P : Platform) (request : Request) (env : Env)
  (w : World) (html : string) (ttl : Z) :
  fetchSucceeded P request env w html ttl ->
  let response := fst (handler P request env w) in
  status response = 200 /\
  body response = html /\
  headersGet "content-type" (headers response) = Some "text/html; charset=utf-8" /\
  (0 < ttl ->
   headersGet "cache-control" (headers response)
   = Some ("public, max-age=" +:+ numberToString ttl +:+
           ", s-maxage=" +:+ numberToString ttl)) /\
  (ttl <= 0 -> headersGet "cache-control" (headers response) = Some "no-store").
Proof.
  intros Hok. destruct (handler_respond Hok) as (key & id & ->).
  cbn [fst]. rewrite headers_of_success.
  repeat split.
  - intros Hpos. apply Z.ltb_lt in Hpos. rewrite Hpos. reflexivity.
  - intros Hneg. apply Z.ltb_ge in Hneg. rewrite Hneg. reflexivity.
Qed.

Lemma success_response_policy_witness :
  let response :=
    fst (handler Sample.platform (Sample.get Sample.link) Sample.env Sample.world) in
  status response = 200 /\
  headersGet "cache-control" (headers response)
  = Some "public, max-age=120, s-maxage=120".
Proof.
  pose proof (success_response_policy Sample.platform (Sample.get Sample.link)
                Sample.env Sample.world "<p>email-123</p>" 120 sample_fetchSucceeded)
    as (Hstatus & _ & _ & Hpos & _).
  split; [exact Hstatus|]. apply Hpos. lia.
Defined.

(** ** Cache writes *)

Lemma waitOnExecutionContext_one (P : Platform) (w : World) (key : Request)
  (r : Response) :
  pending w = [(key, r)] ->
  waitOnExecutionContext P w =
  mkWorld (now w)
          (<[url key := (r, now w + 1000 * freshnessSeconds P r)]> (cache w))
          (resendCalls w) [].
Proof. intros H. unfold waitOnExecutionContext. rewrite H. reflexivity. Qed.

Lemma waitOnExecutionContext_none (P : Platform) (w : World) :
  pending w = [] ->
  waitOnExecutionContext P w = mkWorld (now w) (cache w) (resendCalls w) [].
Proof. intros H. unfold waitOnExecutionContext. rewrite H. reflexivity. Qed.

(** C4. The handler itself leaves the edge cache as it found it, and hands
    a cache write to the execution context exactly when the request reached
    the respond stage with a positive remaining lifetime; that write stores
    the response under the request's URL.  So every write it adds has status
    200 and a cache-control other than "no-store": no failure response and
    no success response with [ttl <= 0] is stored.  Once the detached tasks
    have run, the cache has gained that one entry, or is unchanged. *)
Theorem cache_written_iff_positive_ttl (P : Platform) (request : Request) (env : Env)
  (w : World) :
  let response := fst (handler P request env w) in
  let w' := snd (handler P request env w) in
  let written := exists html ttl, fetchSucceeded P request env w html ttl /\ 0 < ttl in
  cache w' = cache w /\
  (written <-> pending w' = pending w ++ [(createCacheKey request, response)]) /\
  (written \/ pending w' = pending w) /\
  (forall task, In task (pending w') ->
     In task (pending w) \/
     (status (snd task) = 200 /\
      headersGet "cache-control" (headers (snd task)) <> Some "no-store")) /\
  (pending w = [] ->
   (written /\
    cache (snd (serve P request env w))
    = <[url request := (response, now w + 1000 * freshnessSeconds P response)]> (cache w))
   \/ (~ written /\ cache (snd (serve P request env w)) = cache w)).
Proof.
  cbv zeta.
  destruct (fetchSucceeded_or_not P request env w) as [(html & ttl & Hok)|Hnot].
  - destruct (handler_respond Hok) as (key & id & Hrun).
    unfold serve. rewrite Hrun. cbn [fst snd]. unfold afterRespond.
    destruct (0 <? ttl) eqn:Httl.
    + apply Z.ltb_lt in Httl.
      assert (Hw : exists html ttl, fetchSucceeded P request env w html ttl /\ 0 < ttl)
        by (exists html, ttl; split; assumption).
      cbn [cache pending now resendCalls afterFetch].
      split; [reflexivity|]. split; [split; [reflexivity | intros _; exact Hw]|].
      split; [left; exact Hw|]. split.
      * intros task Hin. apply in_app_or in Hin as [Hin|[<-|[]]]; [left; exact Hin|].
        right. cbn [snd]. split; [reflexivity|].
        apply cache_control_of_success. exact Httl.
      * intros Hempty. left. split; [exact Hw|].
        rewrite (waitOnExecutionContext_one P _ (createCacheKey request)
                   (createSuccessResponse html ttl));
          [reflexivity | cbn [pending]; rewrite Hempty; reflexivity].
    + apply Z.ltb_ge in Httl.
      assert (Hw : ~ exists html ttl, fetchSucceeded P request env w html ttl /\ 0 < ttl).
      { intros (html' & ttl' & Hok' & Hpos).
        destruct (fetchSucceeded_functional Hok Hok') as [_ <-]. lia. }
      cbn [cache pending now resendCalls afterFetch].
      split; [reflexivity|]. split.
      { split; [intros H; contradiction | intros H; destruct (app_one_neq _ _ H)]. }
      split; [right; reflexivity|]. split; [intros task Hin; left; exact Hin|].
      intros Hempty. right. split; [exact Hw|].
      rewrite waitOnExecutionContext_none; [reflexivity | exact Hempty].
  - destruct (handler_no_respond Hnot) as (Hcache & Hpending & _).
    assert (Hw : ~ exists html ttl, fetchSucceeded P request env w html ttl /\ 0 < ttl).
    { intros (html & ttl & Hok & _). exact (Hnot _ _ Hok). }
    split; [exact Hcache|]. split.
    { split; [intros H; contradiction|].
      rewrite Hpending. intros H. destruct (app_one_neq _ _ H). }
    split; [right; exact Hpending|]. split.
    { intros task Hin. left. rewrite <- Hpending. exact Hin. }
    intros Hempty. right. split; [exact Hw|].
    unfold serve. destruct (handler P request env w) as [resp w'] eqn:Hrun.
    cbn [snd] in *. rewrite waitOnExecutionContext_none; [exact Hcache|].
    rewrite Hpending. exact Hempty.
Qed.

(** ** Environment validation *)

(** C7. On a cache miss, an environment in which either credential is
    blank after trimming is answered with status 500 and body "Server
    misconfigured", and nothing else happens; two such environments get the
    same answer, whichever credential is the blank one. *)
Theorem blank_credential_is_500 (P : Platform) (request : Request) (w : World)
  (env1 env2 : Env) :
  cacheMiss request w ->
  credentialBlank env1 = true ->
  credentialBlank env2 = true ->
  handler P request env1 w
  = (mkResponse "Server misconfigured" 500 [("content-type", "text/plain; charset=utf-8")],
     w) /\
  handler P request env1 w = handler P request env2 w.
Proof.
  intros Hmiss H1 H2.
  rewrite !(handler_miss _ _ Hmiss), !validateEnv_spec, H1, H2.
  split; reflexivity.
Qed.

Lemma blank_credential_is_500_witness :
  let request := Sample.get Sample.link in
  status (fst (handler Sample.platform request Sample.noApiKeyEnv Sample.world)) = 500 /\
  body (fst (handler Sample.platform request Sample.noApiKeyEnv Sample.world))
  = "Server misconfigured" /\
  handler Sample.platform request Sample.noApiKeyEnv Sample.world
  = handler Sample.platform request Sample.blankSecretEnv Sample.world.
Proof.
  cbv zeta.
  destruct (blank_credential_is_500 Sample.platform (Sample.get Sample.link)
              Sample.world Sample.noApiKeyEnv Sample.blankSecretEnv
              eq_refl eq_refl eq_refl) as [Hrun Hsame].
  split; [rewrite Hrun; reflexivity|]. split; [rewrite Hrun; reflexivity|].
  exact Hsame.
Defined.

(** ** Token extraction *)

(** C8, as the spec states it, fails: the credentials are validated before
    the token is looked at, so a request without a token sent to a worker
    whose API key is blank is answered 500, not 400. *)
Lemma tokenless_request_sees_env_check_first :
  tokenMissing Sample.platform (Sample.get Sample.home) = true /\
  fst (handler Sample.platform (Sample.get Sample.home) Sample.noApiKeyEnv Sample.world)
  = mkResponse "Server misconfigured" 500 [("content-type", "text/plain; charset=utf-8")] /\
  status (fst (handler Sample.platform (Sample.get Sample.home)
                 Sample.noApiKeyEnv Sample.world)) <> 400.
Proof.
  split; [reflexivity|]. split; [vm_compute; reflexivity|].
  vm_compute. discriminate.
Qed.

(** C8, amended. A request whose token parameter is absent or only white
    space never reaches the provider; when it misses the cache and both
    credentials are non-blank it is answered with status 400 and body "Token
    not provided". *)
Theorem missing_token_is_400 (P : Platform) (request : Request) (env : Env) (w : World) :
  tokenMissing P request = true ->
  resendCalls (snd (handler P request env w)) = resendCalls w /\
  (cacheMiss request w ->
   credentialBlank env = false ->
   handler P request env w
   = (mkResponse "Token not provided" 400 [("content-type", "text/plain; charset=utf-8")],
      w)).
Proof.
  intros Hmissing.
  pose proof (extractTokenFromRequest_missing _ _ Hmissing) as Htok.
  split.
  - destruct (fst (cacheMatch (createCacheKey request) w)) as [hit|] eqn:Hlook.
    + rewrite (handler_hit _ _ Hlook). reflexivity.
    + rewrite (handler_miss P env Hlook), Htok.
      destruct (validateEnv env); reflexivity.
  - intros Hmiss Henv.
    rewrite (handler_miss _ _ Hmiss), validateEnv_spec, Henv, Htok. reflexivity.
Qed.

Lemma missing_token_is_400_witness :
  let answer :=
    handler Sample.platform (Sample.get Sample.blankLink) Sample.env Sample.world in
  resendCalls (snd answer) = [] /\
  fst answer
  = mkResponse "Token not provided" 400 [("content-type", "text/plain; charset=utf-8")].
Proof.
  cbv zeta.
  destruct (missing_token_is_400 Sample.platform (Sample.get Sample.blankLink)
              Sample.env Sample.world eq_refl) as [Hcalls Hrun].
  split; [exact Hcalls|]. rewrite (Hrun eq_refl eq_refl). reflexivity.
Defined.

(** C10, as stated, fails: the edge cache is keyed by the verbatim URL, so
    a link and the same link with white space around its token do not share
    an entry.  Sixty seconds after the plain link was served and cached, the
    padded link is fetched anew (and answered with the lifetime that
    remains), while the plain link is answered from the cache. *)
Lemma padded_link_misses_cached_entry :
  searchParamsGet Sample.platform Sample.paddedLink "token" = Some " good " /\
  searchParamsGet Sample.platform Sample.link "token" = Some (trim " good ") /\
  handler Sample.platform (Sample.get Sample.paddedLink) Sample.env Sample.warmWorld
  = (mkResponse "<p>email-123</p>" 200
       [("content-type", "text/html; charset=utf-8");
        ("cache-control", "public, max-age=60, s-maxage=60")],
     mkWorld 1060000 (cache Sample.warmWorld)
       [("test-api-key", "email-123"); ("test-api-key", "email-123")]
       [(Sample.get Sample.paddedLink,
         mkResponse "<p>email-123</p>" 200
           [("content-type", "text/html; charset=utf-8");
            ("cache-control", "public, max-age=60, s-maxage=60")])]) /\
  handler Sample.platform (Sample.get Sample.link) Sample.env Sample.warmWorld
  = (mkResponse "<p>email-123</p>" 200
       [("content-type", "text/html; charset=utf-8");
        ("cache-control", "public, max-age=120, s-maxage=120")],
     Sample.warmWorld) /\
  fst (handler Sample.platform (Sample.get Sample.paddedLink) Sample.env Sample.warmWorld)
  <> fst (handler Sample.platform (Sample.get Sample.link) Sample.env Sample.warmWorld).
Proof.
  split; [reflexivity|]. split; [reflexivity|].
  split; [vm_compute; reflexivity|]. split; [vm_compute; reflexivity|].
  vm_compute. discriminate.
Qed.

(** C10, amended. Of two requests whose token parameters are a string and
    that string trimmed, both hand the same trimmed token to the verifier;
    when both miss the cache they get the same response, make the same
    provider calls and leave the cache alone. *)
Theorem padded_token_same_as_trimmed (P : Platform) (padded plain : Request) (env : Env)
  (w : World) (token : string) :
  searchParamsGet P (url padded) "token" = Some token ->
  searchParamsGet P (url plain) "token" = Some (trim token) ->
  extractTokenFromRequest P padded = extractTokenFromRequest P plain /\
  (isBlank token = false -> extractTokenFromRequest P padded = Success (trim token)) /\
  (cacheMiss padded w -> cacheMiss plain w ->
   fst (handler P padded env w) = fst (handler P plain env w) /\
   resendCalls (snd (handler P padded env w)) = resendCalls (snd (handler P plain env w)) /\
   cache (snd (handler P padded env w)) = cache (snd (handler P plain env w))).
Proof.
  intros Hpadded Hplain.
  assert (Hsame : extractTokenFromRequest P padded = extractTokenFromRequest P plain).
  { rewrite !extractTokenFromRequest_spec, Hpadded, Hplain, isBlank_trim, trim_idempotent.
    reflexivity. }
  split; [exact Hsame|]. split.
  { intros Hnb. rewrite extractTokenFromRequest_spec, Hpadded, Hnb. reflexivity. }
  intros Hm1 Hm2.
  rewrite (handler_miss _ _ Hm1), (handler_miss _ _ Hm2), Hsame.
  destruct (validateEnv env) as [creds|]; [|repeat split].
  destruct (extractTokenFromRequest P plain) as [tok|]; [|repeat split].
  destruct (resolveEmailId P tok (jwtSecret creds)) as [claims|]; [|repeat split].
  destruct (fst (fetchEmailHtml P (emailId claims) (apiKey creds) w)) as [html|];
    [|repeat split].
  cbv zeta. unfold afterRespond.
  destruct (0 <? expiresAtSeconds claims - now w / 1000); repeat split.
Qed.

Lemma padded_token_same_as_trimmed_witness :
  extractTokenFromRequest Sample.platform (Sample.get Sample.paddedLink) = Success "good" /\
  fst (handler Sample.platform (Sample.get Sample.paddedLink) Sample.env Sample.world)
  = fst (handler Sample.platform (Sample.get Sample.link) Sample.env Sample.world).
Proof.
  destruct (padded_token_same_as_trimmed Sample.platform (Sample.get Sample.paddedLink)
              (Sample.get Sample.link) Sample.env Sample.world " good "
              eq_refl eq_refl) as (_ & Htok & Hrun).
  split; [exact (Htok eq_refl)|]. exact (proj1 (Hrun eq_refl eq_refl)).
Defined.

(** ** Serving from the edge cache *)

Lemma cachePut_tasks_frame (P : Platform) (tasks : list (Request * Response)) (w : World) :
  let w' := fold_left (fun acc task => cachePut P (fst task) (snd task) acc) tasks w in
  now w' = now w /\ resendCalls w' = resendCalls w.
Proof.
  revert w. induction tasks as [|[key r] tasks IH]; intros w; [split; reflexivity|].
  cbn [fold_left fst snd]. destruct (IH (cachePut P key r w)) as [Hnow Hcalls].
  split; [rewrite Hnow | rewrite Hcalls]; reflexivity.
Qed.

Lemma waitOnExecutionContext_frame (P : Platform) (w : World) :
  now (waitOnExecutionContext P w) = now w /\
  resendCalls (waitOnExecutionContext P w) = resendCalls w /\
  pending (waitOnExecutionContext P w) = [].
Proof.
  unfold waitOnExecutionContext. cbn [now resendCalls pending].
  destruct (cachePut_tasks_frame P (pending w) w) as [Hnow Hcalls].
  repeat split; assumption.
Qed.

(** The write handed over last decides the entry of its URL. *)
Lemma waitOnExecutionContext_last (P : Platform) (w : World)
  (earlier : list (Request * Response)) (key : Request) (r : Response) :
  pending w = earlier ++ [(key, r)] ->
  cache (waitOnExecutionContext P w) !! url key
  = Some (r, now w + 1000 * freshnessSeconds P r).
Proof.
  intros Hpending. unfold waitOnExecutionContext. cbn [cache].
  rewrite Hpending, fold_left_app. cbn [fold_left fst snd].
  unfold cachePut at 1. cbn [cache].
  destruct (cachePut_tasks_frame P earlier w) as [-> _].
  apply lookup_insert_eq.
Qed.

(** A request answered from the cache: nothing runs, nothing changes. *)
Lemma serve_hit (P : Platform) (request : Request) (env : Env) (w : World)
  (hit : Response) :
  fst (cacheMatch (createCacheKey request) w) = Some hit ->
  fst (serve P request env w) = hit /\
  resendCalls (snd (serve P request env w)) = resendCalls w.
Proof.
  intros Hhit. unfold serve. rewrite (handler_hit P env Hhit). cbn [fst snd].
  split; [reflexivity|]. apply waitOnExecutionContext_frame.
Qed.

(** What a first request that reaches the respond stage with a positive
    lifetime leaves behind, once its detached write has run. *)
Lemma first_request_stores (P : Platform) (request : Request) (env : Env) (w : World)
  (html : string) (ttl : Z) :
  fetchSucceeded P request env w html ttl ->
  0 < ttl ->
  let response := createSuccessResponse html ttl in
  let w' := snd (serve P request env w) in
  fst (serve P request env w) = response /\
  cache w' !! url request = Some (response, now w + 1000 * freshnessSeconds P response) /\
  exists call, resendCalls w' = resendCalls w ++ [call].
Proof.
  intros Hok Hpos. cbv zeta.
  destruct (handler_respond Hok) as (key & id & Hrun).
  apply Z.ltb_lt in Hpos. unfold afterRespond in Hrun. rewrite Hpos in Hrun.
  cbn [now cache resendCalls pending afterFetch] in Hrun.
  unfold serve. rewrite Hrun. cbn [fst snd].
  split; [reflexivity|]. split.
  - exact (waitOnExecutionContext_last P
             (mkWorld (now w) (cache w) (resendCalls w ++ [(key, id)])
                (pending w ++ [(createCacheKey request, createSuccessResponse html ttl)]))
             (pending w) (createCacheKey request) (createSuccessResponse html ttl)
             eq_refl).
  - exists (key, id). apply waitOnExecutionContext_frame.
Qed.

Arguments first_request_stores {P request env w html ttl} _ _.

(** C2. A first request that finds no cached entry and is answered 200
    with a positive remaining lifetime has its response stored once its
    detached write has run.  A second request with the same URL, arriving
    before that entry expires, is answered with the stored response (hence
    the same body) straight from the cache, whatever the environment, the
    verifier and the provider would say by then; the provider has been
    called exactly once over the two requests. *)
Theorem repeat_request_hits_cache (P1 P2 : Platform) (first second : Request)
  (env1 env2 : Env) (w0 : World) (html : string) (ttl t2 : Z) :
  url second = url first ->
  fetchSucceeded P1 first env1 w0 html ttl ->
  0 < ttl ->
  t2 < now w0 + 1000 * freshnessSeconds P1 (createSuccessResponse html ttl) ->
  let response1 := fst (serve P1 first env1 w0) in
  let w1 := snd (serve P1 first env1 w0) in
  let response2 := fst (serve P2 second env2 (advance t2 w1)) in
  let w2 := snd (serve P2 second env2 (advance t2 w1)) in
  status response1 = 200 /\
  body response1 = html /\
  fst (cacheMatch (createCacheKey second) (advance t2 w1)) = Some response1 /\
  response2 = response1 /\
  body response2 = body response1 /\
  exists call,
    resendCalls w1 = resendCalls w0 ++ [call] /\
    resendCalls w2 = resendCalls w0 ++ [call].
Proof.
  intros Hurl Hok Hpos Hfresh. cbv zeta.
  destruct (first_request_stores Hok Hpos) as (Hresp1 & Hentry & call & Hcalls1).
  rewrite Hresp1.
  set (w1 := snd (serve P1 first env1 w0)) in *.
  assert (Hhit : fst (cacheMatch (createCacheKey second) (advance t2 w1))
                 = Some (createSuccessResponse html ttl)).
  { unfold cacheMatch. cbn [createCacheKey url advance cache now].
    rewrite Hurl, Hentry. apply Z.ltb_lt in Hfresh. rewrite Hfresh. reflexivity. }
  destruct (serve_hit P2 second env2 (advance t2 w1) _ Hhit) as [Hresp2 Hcalls2].
  rewrite Hresp2, Hcalls2.
  split; [reflexivity|]. split; [reflexivity|]. split; [exact Hhit|].
  split; [reflexivity|]. split; [reflexivity|].
  exists call. cbn [advance resendCalls]. split; exact Hcalls1.
Qed.

Lemma repeat_request_hits_cache_witness :
  let first := Sample.get Sample.link in
  let again := serve Sample.platform first Sample.noApiKeyEnv Sample.warmWorld in
  body (fst again) = "<p>email-123</p>" /\
  resendCalls (snd again) = [("test-api-key", "email-123")].
Proof.
  cbv zeta.
  destruct (repeat_request_hits_cache Sample.platform Sample.platform
              (Sample.get Sample.link) (Sample.get Sample.link)
              Sample.env Sample.noApiKeyEnv
              Sample.world "<p>email-123</p>" 120 1060000
              eq_refl sample_fetchSucceeded eq_refl eq_refl)
    as (_ & Hbody1 & _ & _ & Hbody2 & call & Hfirst & Hboth).
  split.
  - unfold Sample.warmWorld. rewrite Hbody2. exact Hbody1.
  - unfold Sample.warmWorld. rewrite Hboth, <- Hfirst. reflexivity.
Defined.

(** With an edge cache that grants a stored response the lifetime its
    [s-maxage] names, the entry outlives the token: every second request
    made before the token's expiry is a hit. *)
Lemma hit_until_token_expiry (P : Platform) (first second : Request) (env : Env)
  (w0 : World) (html : string) (ttl t2 : Z) :
  url second = url first ->
  fetchSucceeded P first env w0 html ttl ->
  0 < ttl ->
  freshnessSeconds P (createSuccessResponse html ttl) = ttl ->
  t2 / 1000 < now w0 / 1000 + ttl ->
  fst (cacheMatch (createCacheKey second) (advance t2 (snd (serve P first env w0))))
  = Some (createSuccessResponse html ttl).
Proof.
  intros Hurl Hok Hpos Hhonest Hlive.
  destruct (first_request_stores Hok Hpos) as (_ & Hentry & _).
  unfold cacheMatch. cbn [createCacheKey url advance cache now].
  rewrite Hurl, Hentry, Hhonest.
  assert (Hfresh : t2 < now w0 + 1000 * ttl).
  { pose proof (Z.mod_pos_bound (now w0) 1000 ltac:(lia)) as Hm0.
    pose proof (Z.mod_pos_bound t2 1000 ltac:(lia)) as Hm2.
    pose proof (Z.div_mod (now w0) 1000 ltac:(lia)) as Hd0.
    pose proof (Z.div_mod t2 1000 ltac:(lia)) as Hd2. lia. }
  apply Z.ltb_lt in Hfresh. rewrite Hfresh. reflexivity.
Qed.

(** * Further properties of the worker *)

Lemma afterRespond_calls (request : Request) (response : Response) (ttl : Z) (w : World) :
  resendCalls (afterRespond request response ttl w) = resendCalls w.
Proof. unfold afterRespond. destruct (0 <? ttl); reflexivity. Qed.

(** X1. A request makes at most one provider call, and only after the
    token has been verified: either the call log is unchanged, or the
    request missed the cache, both credentials were non-blank, the token was
    extracted and verified, and the one call made carries the trimmed API
    key and the [email_id] of the verified token. *)
Theorem provider_called_only_for_verified_token (P : Platform) (request : Request)
  (env : Env) (w : World) :
  let w' := snd (handler P request env w) in
  resendCalls w' = resendCalls w \/
  exists token claims,
    cacheMiss request w /\
    credentialBlank env = false /\
    extractTokenFromRequest P request = Success token /\
    resolveEmailId P token (trim (RESEND_JWT_SECRET env)) = Success claims /\
    resendCalls w' = resendCalls w ++ [(trim (RESEND_API_KEY env), emailId claims)].
Proof.
  cbv zeta.
  destruct (fst (cacheMatch (createCacheKey request) w)) as [hit|] eqn:Hlook.
  { left. rewrite (handler_hit P env Hlook). reflexivity. }
  rewrite (handler_miss P env Hlook), validateEnv_spec.
  destruct (credentialBlank env) eqn:Henv; [left; reflexivity|].
  destruct (extractTokenFromRequest P request) as [token|]; [|left; reflexivity].
  cbn [jwtSecret apiKey].
  destruct (resolveEmailId P token (trim (RESEND_JWT_SECRET env))) as [claims|] eqn:Hres;
    [|left; reflexivity].
  right. exists token, claims.
  split; [exact Hlook|]. split; [reflexivity|]. split; [reflexivity|].
  split; [exact Hres|].
  destruct (fst (fetchEmailHtml P (emailId claims) (trim (RESEND_API_KEY env)) w));
    cbv zeta; cbn [snd]; [rewrite afterRespond_calls|]; reflexivity.
Qed.

(** X2. On a cache miss the handler answers either 200 with the HTML of a
    successful fetch, or a plain-text error whose status is one of 400, 401,
    404, 500 and 502, which carries no cache-control header. *)
Theorem miss_response_is_success_or_listed_error (P : Platform) (request : Request)
  (env : Env) (w : World) :
  cacheMiss request w ->
  let response := fst (handler P request env w) in
  (exists html ttl,
     fetchSucceeded P request env w html ttl /\
     response = createSuccessResponse html ttl) \/
  (In (status response) [400; 401; 404; 500; 502] /\
   headers response = [("content-type", "text/plain; charset=utf-8")] /\
   headersGet "cache-control" (headers response) = None).
Proof.
  intros Hmiss. cbv zeta.
  destruct (fetchSucceeded_or_not P request env w) as [(html & ttl & Hok)|Hnot].
  { left. exists html, ttl. split; [exact Hok|].
    destruct (handler_respond Hok) as (key & id & ->). reflexivity. }
  right. rewrite (handler_miss P env Hmiss).
  destruct (validateEnv env) as [creds|st msg] eqn:Henv.
  2:{ apply validateEnv_failure in Henv as [-> _]. cbn. intuition. }
  destruct (extractTokenFromRequest P request) as [token|st msg] eqn:Htok.
  2:{ apply extractTokenFromRequest_failure in Htok as [-> _]. cbn. intuition. }
  destruct (resolveEmailId P token (jwtSecret creds)) as [claims|st msg] eqn:Hres.
  2:{ apply resolveEmailId_failure in Hres as [-> | ->]; cbn; intuition. }
  destruct (fst (fetchEmailHtml P (emailId claims) (apiKey creds) w))
    as [html|st msg] eqn:Hfetch.
  2:{ apply fetchEmailHtml_failure in Hfetch as [-> | ->]; cbn; intuition. }
  exfalso. apply (Hnot html (expiresAtSeconds claims - now w / 1000)).
  split; [exact Hmiss|]. exists creds, token, claims. repeat split; assumption.
Qed.

Lemma miss_response_is_success_or_listed_error_witness :
  status (fst (handler Sample.platform (Sample.get Sample.home) Sample.env Sample.world))
  = 400 /\
  (let response :=
     fst (handler Sample.platform (Sample.get Sample.home) Sample.env Sample.world) in
   (exists html ttl,
      fetchSucceeded Sample.platform (Sample.get Sample.home) Sample.env Sample.world
        html ttl /\
      response = createSuccessResponse html ttl) \/
   (In (status response) [400; 401; 404; 500; 502] /\
    headers response = [("content-type", "text/plain; charset=utf-8")] /\
    headersGet "cache-control" (headers response) = None)).
Proof.
  split; [reflexivity|].
  exact (miss_response_is_success_or_listed_error Sample.platform
           (Sample.get Sample.home) Sample.env Sample.world eq_refl).
Defined.

(** X3. The credentials [validateEnv] hands on are the trimmed bindings:
    non-empty, unchanged by trimming, and accepted as they are when fed back
    as an environment. *)
Theorem validateEnv_credentials_normalized (env : Env) (creds : Credentials) :
  validateEnv env = Success creds ->
  apiKey creds = trim (RESEND_API_KEY env) /\
  jwtSecret creds = trim (RESEND_JWT_SECRET env) /\
  apiKey creds <> "" /\ jwtSecret creds <> "" /\
  trim (apiKey creds) = apiKey creds /\ trim (jwtSecret creds) = jwtSecret creds /\
  validateEnv (mkEnv (apiKey creds) (jwtSecret creds)) = Success creds.
Proof.
  rewrite validateEnv_spec. unfold credentialBlank, isBlank.
  destruct (String.eqb_spec (trim (RESEND_API_KEY env)) "") as [|Hkey]; [discriminate|].
  destruct (String.eqb_spec (trim (RESEND_JWT_SECRET env)) "") as [|Hsecret];
    [discriminate|].
  intros [= <-]. cbn [apiKey jwtSecret orb].
  repeat split; try assumption; try apply trim_idempotent.
  rewrite validateEnv_spec. unfold credentialBlank, isBlank.
  cbn [RESEND_API_KEY RESEND_JWT_SECRET]. rewrite !trim_idempotent.
  destruct (String.eqb_spec (trim (RESEND_API_KEY env)) ""); [contradiction|].
  destruct (String.eqb_spec (trim (RESEND_JWT_SECRET env)) ""); [contradiction|].
  reflexivity.
Qed.

Lemma validateEnv_credentials_normalized_witness :
  validateEnv (mkEnv "  test-api-key " "test-secret  ")
  = Success (mkCredentials "test-api-key" "test-secret") /\
  validateEnv (mkEnv "test-api-key" "test-secret")
  = Success (mkCredentials "test-api-key" "test-secret").
Proof.
  split; [reflexivity|].
  exact (proj2 (proj2 (proj2 (proj2 (proj2 (proj2
           (validateEnv_credentials_normalized
              (mkEnv "  test-api-key " "test-secret  ")
              (mkCredentials "test-api-key" "test-secret") eq_refl))))))).
Defined.

(** X4. White space around the configured credentials does not matter: two
    environments whose bindings agree once trimmed are served alike, request
    for request. *)
Theorem handler_ignores_credential_padding (P : Platform) (request : Request)
  (env1 env2 : Env) (w : World) :
  trim (RESEND_API_KEY env1) = trim (RESEND_API_KEY env2) ->
  trim (RESEND_JWT_SECRET env1) = trim (RESEND_JWT_SECRET env2) ->
  handler P request env1 w = handler P request env2 w.
Proof.
  intros Hkey Hsecret.
  destruct (fst (cacheMatch (createCacheKey request) w)) as [hit|] eqn:Hlook.
  { rewrite !(handler_hit P _ Hlook). reflexivity. }
  rewrite !(handler_miss P _ Hlook), !validateEnv_spec.
  unfold credentialBlank, isBlank. rewrite Hkey, Hsecret. reflexivity.
Qed.

Lemma handler_ignores_credential_padding_witness :
  handler Sample.platform (Sample.get Sample.link)
    (mkEnv " test-api-key" "test-secret  ") Sample.world
  = handler Sample.platform (Sample.get Sample.link) Sample.env Sample.world.
Proof.
  exact (handler_ignores_credential_padding Sample.platform (Sample.get Sample.link)
           (mkEnv " test-api-key" "test-secret  ") Sample.env Sample.world
           eq_refl eq_refl).
Defined.

(** X5. The lifetime a successful response advertises is the token's
    remaining lifetime counted in whole seconds from the start of the
    current second: in milliseconds it is never less than what remains and
    exceeds it by less than one second.  The response is handed to the cache
    exactly while the token has time left. *)
Theorem advertised_lifetime_brackets_token_expiry (P : Platform) (request : Request)
  (env : Env) (w : World) (creds : Credentials) (token : string) (claims : Claims)
  (html : string) :
  cacheMiss request w ->
  validateEnv env = Success creds ->
  extractTokenFromRequest P request = Success token ->
  resolveEmailId P token (jwtSecret creds) = Success claims ->
  fst (fetchEmailHtml P (emailId claims) (apiKey creds) w) = Success html ->
  let ttl := expiresAtSeconds claims - now w / 1000 in
  let remainingMs := 1000 * expiresAtSeconds claims - now w in
  let response := createSuccessResponse html ttl in
  fst (handler P request env w) = response /\
  remainingMs <= 1000 * ttl < remainingMs + 1000 /\
  (0 < ttl <-> 0 < remainingMs) /\
  (0 < remainingMs <->
   pending (snd (handler P request env w))
   = pending w ++ [(createCacheKey request, response)]).
Proof.
  intros Hmiss Henv Htok Hres Hfetch. cbv zeta.
  rewrite (handler_miss P env Hmiss), Henv, Htok, Hres, Hfetch. cbv zeta. cbn [fst snd].
  pose proof (Z.mod_pos_bound (now w) 1000 ltac:(lia)) as Hmod.
  pose proof (Z.div_mod (now w) 1000 ltac:(lia)) as Hdiv.
  split; [reflexivity|]. split; [lia|]. split; [lia|].
  unfold afterRespond.
  destruct (0 <? expiresAtSeconds claims - now w / 1000) eqn:Httl.
  - apply Z.ltb_lt in Httl. cbn [pending afterFetch]. split; [reflexivity | lia].
  - apply Z.ltb_ge in Httl. cbn [pending afterFetch].
    split; [lia | intros H; destruct (app_one_neq _ _ H)].
Qed.

Lemma advertised_lifetime_brackets_token_expiry_witness :
  let late := advance 1119999 Sample.world in
  fst (handler Sample.platform (Sample.get Sample.link) Sample.env late)
  = createSuccessResponse "<p>email-123</p>" 1 /\
  1000 * 1120 - 1119999 = 1.
Proof.
  cbv zeta.
  pose proof (advertised_lifetime_brackets_token_expiry Sample.platform
                (Sample.get Sample.link) Sample.env (advance 1119999 Sample.world)
                (mkCredentials "test-api-key" "test-secret") "good"
                (mkClaims "email-123" 1000 1120) "<p>email-123</p>"
                eq_refl eq_refl eq_refl eq_refl eq_refl) as (Hresp & _).
  split; [exact Hresp | reflexivity].
Defined.

(** X6. [resolveEmailId] succeeds only for a token the verification library
    accepted under the UTF-8 bytes of the secret, and the claims it returns
    are read off that token's payload: a non-empty string [email_id] and
    numeric [iat] and [exp]. *)
Theorem resolved_claims_come_from_verified_payload (P : Platform)
  (token secret : string) (claims : Claims) :
  resolveEmailId P token secret = Success claims ->
  exists payload,
    jwtVerify P token (textEncode secret) = JoseResolves payload /\
    getProp (JsObject payload) "email_id" = JsString (emailId claims) /\
    emailId claims <> "" /\
    getProp (JsObject payload) "iat" = JsNumber (issuedAtSeconds claims) /\
    getProp (JsObject payload) "exp" = JsNumber (expiresAtSeconds claims).
Proof.
  unfold resolveEmailId.
  destruct (jwtVerify P token (textEncode secret)) as [payload|e]; [|discriminate].
  rewrite extractEmailId_spec. intros Hok. exists payload.
  destruct (getProp (JsObject payload) "email_id") as [| | b | n | s | props];
    try discriminate.
  destruct (String.eqb_spec s "") as [|Hne]; [discriminate|].
  destruct (getProp (JsObject payload) "iat"), (getProp (JsObject payload) "exp");
    try discriminate.
  injection Hok as <-. cbn [emailId issuedAtSeconds expiresAtSeconds].
  repeat split. exact Hne.
Qed.

Lemma resolved_claims_come_from_verified_payload_witness :
  exists payload,
    jwtVerify Sample.platform "good" (textEncode "test-secret") = JoseResolves payload /\
    getProp (JsObject payload) "email_id" = JsString "email-123" /\
    "email-123" <> "" /\
    getProp (JsObject payload) "iat" = JsNumber 1000 /\
    getProp (JsObject payload) "exp" = JsNumber 1120.
Proof.
  exact (resolved_claims_come_from_verified_payload Sample.platform "good" "test-secret"
           (mkClaims "email-123" 1000 1120) eq_refl).
Defined.

(** X7. An answer that is not stored is computed again: after a request
    that missed the cache and was answered with an error, or with a
    [no-store] success, the same URL still misses the cache at any later
    time. *)
Theorem unstored_answer_misses_again (P : Platform) (request : Request) (env : Env)
  (w : World) (t : Z) :
  cacheMiss request w ->
  pending w = [] ->
  status (fst (serve P request env w)) <> 200 \/
  headersGet "cache-control" (headers (fst (serve P request env w))) = Some "no-store" ->
  now w <= t ->
  cacheMiss request (advance t (snd (serve P request env w))).
Proof.
  intros Hmiss Hempty Hunstored Hlater.
  assert (Hcache : cache (snd (serve P request env w)) = cache w).
  { unfold serve in *.
    destruct (fetchSucceeded_or_not P request env w) as [(html & ttl & Hok)|Hnot].
    - destruct (handler_respond Hok) as (key & id & Hrun). rewrite Hrun in *.
      cbn [fst snd] in *. unfold afterRespond.
      destruct (0 <? ttl) eqn:Httl.
      + apply Z.ltb_lt in Httl. destruct Hunstored as [Hst | Hcc].
        * exfalso. apply Hst. reflexivity.
        * exfalso. exact (cache_control_of_success html ttl Httl Hcc).
      + rewrite waitOnExecutionContext_none; [reflexivity | exact Hempty].
    - destruct (handler_no_respond Hnot) as (Hc & Hp & _).
      destruct (handler P request env w) as [resp w'].
      cbn [fst snd] in *. rewrite waitOnExecutionContext_none; [exact Hc|].
      rewrite Hp. exact Hempty. }
  unfold cacheMiss, cacheMatch in *.
  cbn [advance cache now]. rewrite Hcache.
  destruct (cache w !! url (createCacheKey request)) as [[r deadline]|]; [|reflexivity].
  destruct (now w <? deadline) eqn:Hfresh; [discriminate|].
  apply Z.ltb_ge in Hfresh.
  assert (Hstale : (t <? deadline) = false) by (apply Z.ltb_ge; lia).
  rewrite Hstale. reflexivity.
Qed.

Lemma unstored_answer_misses_again_witness :
  cacheMiss (Sample.get Sample.link)
    (advance 2000000
       (snd (serve Sample.platform (Sample.get Sample.link) Sample.noApiKeyEnv
               Sample.world))).
Proof.
  apply (unstored_answer_misses_again Sample.platform (Sample.get Sample.link)
           Sample.noApiKeyEnv Sample.world 2000000);
    [reflexivity | reflexivity | left; vm_compute; discriminate | vm_compute; discriminate].
Defined.

(** X8. A token that [extractTokenFromRequest] hands to the verifier is the
    trimmed query parameter: it is not empty and has no white space left to
    trim. *)
Theorem extracted_token_is_trimmed (P : Platform) (request : Request) (token : string) :
  extractTokenFromRequest P request = Success token ->
  exists raw,
    searchParamsGet P (url request) "token" = Some raw /\
    token = trim raw /\ token <> "" /\ trim token = token.
Proof.
  rewrite extractTokenFromRequest_spec.
  destruct (searchParamsGet P (url request) "token") as [raw|]; [|discriminate].
  unfold isBlank. destruct (String.eqb_spec (trim raw) "") as [|Hne]; [discriminate|].
  intros [= <-]. exists raw.
  repeat split; [exact Hne | apply trim_idempotent].
Qed.

Lemma extracted_token_is_trimmed_witness :
  exists raw,
    searchParamsGet Sample.platform Sample.paddedLink "token" = Some raw /\
    "good" = trim raw /\ "good" <> "" /\ trim "good" = "good".
Proof.
  exact (extracted_token_is_trimmed Sample.platform (Sample.get Sample.paddedLink)
           "good" eq_refl).
Defined.

(** * Properties of the token generator *)

Example sample_script_run :
  GenerateJwt.runScript GenerateJwt.sampleSigner GenerateJwt.sampleArgv None 1000000
  = Some (GenerateJwt.mkTerminal
            [(Sample.payload, textEncode "test-secret")]
            [[JsString "Email ID:"; JsString "email-123"];
             [JsString "Issued At:"; JsNumber 1000];
             [JsString "Expires At:"; JsNumber 1120];
             [JsString "JWT:"; JsString "good"]]
            [] None).
Proof. vm_compute. reflexivity. Qed.

Example sample_script_no_secret :
  GenerateJwt.runScript GenerateJwt.sampleSigner
    ["bun"; "generate-jwt.ts"; "--email-id"; "email-123"] None 1000000
  = Some (GenerateJwt.mkTerminal [] []
            [[JsString "Missing secret. Pass --secret or set RESEND_JWT_SECRET."]]
            (Some 1)).
Proof. vm_compute. reflexivity. Qed.

Lemma startsWith_dashes (part : string) :
  GenerateJwt.startsWith part "--" = true -> part = "--" +:+ GenerateJwt.slice 2 part.
Proof.
  unfold GenerateJwt.startsWith.
  destruct part as [|a [|b rest]]; cbn [String.prefix GenerateJwt.slice];
    try discriminate.
  - destruct (Ascii.ascii_dec "-" a); discriminate.
  - destruct (Ascii.ascii_dec "-" a) as [<-|]; [|discriminate].
    destruct (Ascii.ascii_dec "-" b) as [<-|]; [|discriminate].
    reflexivity.
Qed.

Lemma assign_fields (key next : string) (result : GenerateJwt.ParsedArgs) :
  (GenerateJwt.argSecret (GenerateJwt.assign key next result)
   = if String.eqb key "secret" then Some next else GenerateJwt.argSecret result) /\
  (GenerateJwt.argEmailId (GenerateJwt.assign key next result)
   = if String.eqb key "email-id" then Some next else GenerateJwt.argEmailId result) /\
  (GenerateJwt.argExpiresIn (GenerateJwt.assign key next result)
   = if String.eqb key "expires-in" then Some next
     else GenerateJwt.argExpiresIn result).
Proof.
  unfold GenerateJwt.assign.
  destruct (String.eqb_spec key "secret") as [->|]; [repeat split|].
  destruct (String.eqb_spec key "email-id") as [->|]; [repeat split|].
  destruct (String.eqb_spec key "expires-in") as [->|]; repeat split.
Qed.

Lemma followsFlag_cons (flag value part : string) (argv : list string) :
  followsFlag flag value argv -> followsFlag flag value (part :: argv).
Proof.
  intros [Hv (before & after & ->)]. split; [exact Hv|].
  exists (part :: before), after. reflexivity.
Qed.

Lemma parseArgsFrom_origin (argv : list string) (result : GenerateJwt.ParsedArgs) :
  let parsed := GenerateJwt.parseArgsFrom result argv in
  (forall v, GenerateJwt.argSecret parsed = Some v ->
     GenerateJwt.argSecret result = Some v \/ followsFlag "--secret" v argv) /\
  (forall v, GenerateJwt.argEmailId parsed = Some v ->
     GenerateJwt.argEmailId result = Some v \/ followsFlag "--email-id" v argv) /\
  (forall v, GenerateJwt.argExpiresIn parsed = Some v ->
     GenerateJwt.argExpiresIn result = Some v \/ followsFlag "--expires-in" v argv).
Proof.
  revert result. induction argv as [|part rest IH]; intros result; cbv zeta.
  { cbn. repeat split; intros v H; left; exact H. }
  assert (Hskip : forall r,
    (forall v, GenerateJwt.argSecret (GenerateJwt.parseArgsFrom r rest) = Some v ->
       GenerateJwt.argSecret r = Some v \/ followsFlag "--secret" v (part :: rest)) /\
    (forall v, GenerateJwt.argEmailId (GenerateJwt.parseArgsFrom r rest) = Some v ->
       GenerateJwt.argEmailId r = Some v \/ followsFlag "--email-id" v (part :: rest)) /\
    (forall v, GenerateJwt.argExpiresIn (GenerateJwt.parseArgsFrom r rest) = Some v ->
       GenerateJwt.argExpiresIn r = Some v \/
       followsFlag "--expires-in" v (part :: rest))).
  { intros r. destruct (IH r) as (H1 & H2 & H3).
    repeat split; intros v Hv;
      [destruct (H1 v Hv) | destruct (H2 v Hv) | destruct (H3 v Hv)];
      auto using followsFlag_cons. }
  cbn [GenerateJwt.parseArgsFrom].
  destruct (GenerateJwt.startsWith part "--") eqn:Hflag; cbn [negb]; [|apply Hskip].
  destruct rest as [|next rest']; [apply Hskip|].
  destruct (GenerateJwt.startsWith next "--") eqn:Hnext; [apply Hskip|].
  destruct (Hskip (GenerateJwt.assign (GenerateJwt.slice 2 part) next result))
    as (H1 & H2 & H3).
  destruct (assign_fields (GenerateJwt.slice 2 part) next result) as (A1 & A2 & A3).
  pose proof (startsWith_dashes part Hflag) as Hpart.
  repeat split; intros v Hv;
    [destruct (H1 v Hv) as [Hr|Hr]; [rewrite A1 in Hr|right; exact Hr]
    |destruct (H2 v Hv) as [Hr|Hr]; [rewrite A2 in Hr|right; exact Hr]
    |destruct (H3 v Hv) as [Hr|Hr]; [rewrite A3 in Hr|right; exact Hr]].
  - destruct (String.eqb_spec (GenerateJwt.slice 2 part) "secret") as [Hk|];
      [|left; exact Hr].
    injection Hr as <-. right. split; [exact Hnext|].
    exists [], rest'. rewrite Hpart, Hk. reflexivity.
  - destruct (String.eqb_spec (GenerateJwt.slice 2 part) "email-id") as [Hk|];
      [|left; exact Hr].
    injection Hr as <-. right. split; [exact Hnext|].
    exists [], rest'. rewrite Hpart, Hk. reflexivity.
  - destruct (String.eqb_spec (GenerateJwt.slice 2 part) "expires-in") as [Hk|];
      [|left; exact Hr].
    injection Hr as <-. right. split; [exact Hnext|].
    exists [], rest'. rewrite Hpart, Hk. reflexivity.
Qed.

(** X9. Every value [parseArgs] returns stands in [argv] right after its
    own flag and does not itself begin with "--": a secret, an e-mail id or
    a lifetime that starts with two dashes can not be passed. *)
Theorem parseArgs_values_follow_their_flags (argv : list string) :
  let parsed := GenerateJwt.parseArgs argv in
  (forall v, GenerateJwt.argSecret parsed = Some v -> followsFlag "--secret" v argv) /\
  (forall v, GenerateJwt.argEmailId parsed = Some v -> followsFlag "--email-id" v argv) /\
  (forall v, GenerateJwt.argExpiresIn parsed = Some v ->
     followsFlag "--expires-in" v argv).
Proof.
  cbv zeta. unfold GenerateJwt.parseArgs.
  destruct (parseArgsFrom_origin argv (GenerateJwt.mkParsedArgs None None None))
    as (H1 & H2 & H3).
  split; [|split]; intros v Hv;
    [destruct (H1 v Hv) as [H|H] | destruct (H2 v Hv) as [H|H]
    | destruct (H3 v Hv) as [H|H]];
    solve [discriminate H | exact H].
Qed.

Lemma parseArgsFrom_snoc (argv : list string) (result : GenerateJwt.ParsedArgs)
  (flag value : string) :
  GenerateJwt.startsWith flag "--" = true ->
  GenerateJwt.startsWith value "--" = false ->
  GenerateJwt.parseArgsFrom result (argv ++ [flag; value])
  = GenerateJwt.assign (GenerateJwt.slice 2 flag) value
      (GenerateJwt.parseArgsFrom result argv).
Proof.
  intros Hflag Hvalue. revert result.
  induction argv as [|part rest IH]; intros result.
  { cbn [app GenerateJwt.parseArgsFrom]. rewrite Hflag, Hvalue. cbn [negb]. reflexivity. }
  cbn [app GenerateJwt.parseArgsFrom].
  destruct (GenerateJwt.startsWith part "--"); cbn [negb]; [|apply IH].
  destruct rest as [|next rest'].
  - cbn [app]. rewrite Hflag. apply (IH result).
  - cbn [app]. destruct (GenerateJwt.startsWith next "--"); apply IH.
Qed.

(** X10. Later arguments win: appending a flag and a value that does not
    begin with "--" to any command line sets that one option to the value,
    whatever was given for it before, and leaves the others as they were;
    a flag other than the three known ones changes nothing. *)
Theorem parseArgs_last_flag_wins (argv : list string) (flag value : string) :
  GenerateJwt.startsWith flag "--" = true ->
  GenerateJwt.startsWith value "--" = false ->
  let before := GenerateJwt.parseArgs argv in
  let after := GenerateJwt.parseArgs (argv ++ [flag; value]) in
  GenerateJwt.argSecret after
  = (if String.eqb flag "--secret" then Some value else GenerateJwt.argSecret before) /\
  GenerateJwt.argEmailId after
  = (if String.eqb flag "--email-id" then Some value
     else GenerateJwt.argEmailId before) /\
  GenerateJwt.argExpiresIn after
  = (if String.eqb flag "--expires-in" then Some value
     else GenerateJwt.argExpiresIn before).
Proof.
  intros Hflag Hvalue. cbv zeta. unfold GenerateJwt.parseArgs.
  rewrite (parseArgsFrom_snoc _ _ _ _ Hflag Hvalue).
  destruct (assign_fields (GenerateJwt.slice 2 flag) value
              (GenerateJwt.parseArgsFrom (GenerateJwt.mkParsedArgs None None None) argv))
    as (-> & -> & ->).
  pose proof (startsWith_dashes flag Hflag) as Hshape.
  assert (Hkey : forall name,
            String.eqb (GenerateJwt.slice 2 flag) name = String.eqb flag ("--" +:+ name)).
  { intros name. rewrite Hshape at 2.
    destruct (String.eqb_spec (GenerateJwt.slice 2 flag) name) as [->|Hne].
    - symmetry. apply String.eqb_refl.
    - symmetry. apply String.eqb_neq. intros Heq. apply Hne.
      cbn in Heq. injection Heq as Heq. exact Heq. }
  rewrite !Hkey. repeat split.
Qed.

Lemma parseArgs_last_flag_wins_witness :
  GenerateJwt.argSecret
    (GenerateJwt.parseArgs (["--secret"; "old"; "--email-id"] ++ ["--secret"; "new"]))
  = Some "new".
Proof.
  exact (proj1 (parseArgs_last_flag_wins ["--secret"; "old"; "--email-id"]
                  "--secret" "new" eq_refl eq_refl)).
Defined.

Lemma isBlank_strlen (s : string) : (strlen (trim s) =? 0) = isBlank s.
Proof. unfold isBlank. apply strlen_zero. Qed.

Lemma parseInt10_exact_bound (s : string) (n : Z) :
  GenerateJwt.parseInt10 s = GenerateJwt.IntExact n -> - 10 ^ 15 <= n <= 10 ^ 15.
Proof.
  assert (Hnonneg : forall ds acc, (forall d, In d ds -> 0 <= d) -> 0 <= acc ->
            0 <= fold_left (fun a d => 10 * a + d) ds acc).
  { induction ds as [|d ds IH]; intros acc Hds Hacc; [exact Hacc|].
    cbn [fold_left]. apply IH; [intros d' Hd'; apply Hds; right; exact Hd'|].
    pose proof (Hds d (or_introl eq_refl)). lia. }
  assert (Hdigits : forall u d, In d (GenerateJwt.leadingDigits u) -> 0 <= d).
  { induction u as [|c u IH]; intros d; [intros []|].
    cbn [GenerateJwt.leadingDigits]. unfold GenerateJwt.digitValue.
    destruct ((48 <=? Z.of_N (N_of_ascii c)) && (Z.of_N (N_of_ascii c) <=? 57)) eqn:Hc;
      [|intros []].
    intros [<-|Hin]; [lia | apply IH; exact Hin]. }
  unfold GenerateJwt.parseInt10.
  destruct (match trimStart s with
            | String "-" rest => (true, rest)
            | String "+" rest => (false, rest)
            | _ => (false, trimStart s)
            end) as [negative unsigned].
  pose proof (Hnonneg (GenerateJwt.leadingDigits unsigned) 0
                (Hdigits unsigned) ltac:(lia)) as Hpos.
  fold (GenerateJwt.digitsValue (GenerateJwt.leadingDigits unsigned)) in Hpos.
  destruct (GenerateJwt.leadingDigits unsigned) as [|d ds]; [discriminate|].
  cbv zeta.
  destruct (GenerateJwt.digitsValue (d :: ds) <=? 10 ^ 15) eqn:Hle; [|discriminate].
  apply Z.leb_le in Hle. intros [= <-]. destruct negative; lia.
Qed.

(** X11. Options that [parseOptions] returns are usable: the secret is the
    one given on the command line or, only when none was given there, the
    environment's, and is not blank; the e-mail id is the one given and is
    not blank; the lifetime is a positive number of seconds, 900 when no
    [--expires-in] was given.  Secret and e-mail id are returned as given,
    not trimmed. *)
Theorem parseOptions_returns_usable_options (args : GenerateJwt.ParsedArgs)
  (envSecret : option string) (options : GenerateJwt.ScriptOptions) :
  GenerateJwt.parseOptions args envSecret = Some (GenerateJwt.Returns options) ->
  (GenerateJwt.argSecret args = Some (GenerateJwt.secret options) \/
   (GenerateJwt.argSecret args = None /\ envSecret = Some (GenerateJwt.secret options))) /\
  isBlank (GenerateJwt.secret options) = false /\
  GenerateJwt.argEmailId args = Some (GenerateJwt.emailId options) /\
  isBlank (GenerateJwt.emailId options) = false /\
  0 < GenerateJwt.expiresInSeconds options <= 10 ^ 15 /\
  (GenerateJwt.argExpiresIn args = None -> GenerateJwt.expiresInSeconds options = 900).
Proof.
  unfold GenerateJwt.parseOptions. intros Hret.
  assert (Hsecret : exists s,
    (GenerateJwt.argSecret args = Some s \/
     (GenerateJwt.argSecret args = None /\ envSecret = Some s)) /\
    match GenerateJwt.argSecret args with Some given => Some given | None => envSecret end
    = Some s).
  { destruct (GenerateJwt.argSecret args) as [given|]; [exists given; auto|].
    destruct envSecret as [s|]; [exists s; auto | discriminate]. }
  destruct Hsecret as (s & Hfrom & Hs). rewrite Hs in Hret.
  rewrite isBlank_strlen in Hret.
  destruct (isBlank s) eqn:Hsb; [discriminate|].
  rewrite isBlank_strlen in Hret.
  destruct (GenerateJwt.argEmailId args) as [e|]; cbn [default from_option id] in Hret;
    [|change (isBlank "") with true in Hret; discriminate].
  destruct (isBlank e) eqn:Heb; [discriminate|].
  destruct (GenerateJwt.parseInt10
              (default (numberToString GenerateJwt.defaultExpiresInSeconds)
                 (GenerateJwt.argExpiresIn args))) as [|n|[|]] eqn:Hint;
    try discriminate.
  destruct (n <=? 0) eqn:Hn; [discriminate|]. apply Z.leb_gt in Hn.
  injection Hret as <-.
  cbn [GenerateJwt.secret GenerateJwt.emailId GenerateJwt.expiresInSeconds].
  pose proof (parseInt10_exact_bound _ _ Hint) as Hbound.
  split; [exact Hfrom|]. split; [exact Hsb|]. split; [reflexivity|].
  split; [exact Heb|]. split; [lia|].
  intros Hnone. rewrite Hnone in Hint.
  vm_compute in Hint. injection Hint as <-. reflexivity.
Qed.

Lemma parseOptions_returns_usable_options_witness :
  let args := GenerateJwt.parseArgs ["--email-id"; "email-123"] in
  GenerateJwt.parseOptions args (Some "env-secret")
  = Some (GenerateJwt.Returns (GenerateJwt.mkScriptOptions "env-secret" "email-123" 900))
  /\ 0 < 900 <= 10 ^ 15.
Proof.
  cbv zeta. split; [reflexivity|].
  exact (proj1 (proj2 (proj2 (proj2 (proj2
           (parseOptions_returns_usable_options
              (GenerateJwt.parseArgs ["--email-id"; "email-123"]) (Some "env-secret")
              (GenerateJwt.mkScriptOptions "env-secret" "email-123" 900) eq_refl)))))).
Defined.

(** X12. The environment's secret is a fallback for an absent [--secret]
    only: once a secret is given on the command line the environment is not
    consulted, and a blank one is refused even when the environment holds a
    usable secret. *)
Theorem cli_secret_shadows_environment (args : GenerateJwt.ParsedArgs)
  (given : string) (envSecret : option string) :
  GenerateJwt.argSecret args = Some given ->
  GenerateJwt.parseOptions args envSecret = GenerateJwt.parseOptions args None /\
  (isBlank given = true ->
   GenerateJwt.parseOptions args envSecret
   = Some (GenerateJwt.ThrowsError
             "Missing secret. Pass --secret or set RESEND_JWT_SECRET.")).
Proof.
  intros Hgiven. unfold GenerateJwt.parseOptions. rewrite Hgiven.
  split; [reflexivity|]. rewrite isBlank_strlen. intros ->. reflexivity.
Qed.

Lemma cli_secret_shadows_environment_witness :
  GenerateJwt.parseOptions
    (GenerateJwt.parseArgs ["--secret"; "  "; "--email-id"; "email-123"])
    (Some "env-secret")
  = Some (GenerateJwt.ThrowsError
            "Missing secret. Pass --secret or set RESEND_JWT_SECRET.").
Proof.
  exact (proj2 (cli_secret_shadows_environment
                  (GenerateJwt.parseArgs ["--secret"; "  "; "--email-id"; "email-123"])
                  "  " (Some "env-secret") eq_refl) eq_refl).
Defined.

(** What every returned set of options satisfies. *)
Lemma parseOptions_options_valid (args : GenerateJwt.ParsedArgs)
  (envSecret : option string) (options : GenerateJwt.ScriptOptions) :
  GenerateJwt.parseOptions args envSecret = Some (GenerateJwt.Returns options) ->
  isBlank (GenerateJwt.secret options) = false /\
  isBlank (GenerateJwt.emailId options) = false /\
  0 < GenerateJwt.expiresInSeconds options.
Proof.
  unfold GenerateJwt.parseOptions. intros Hret.
  destruct (match GenerateJwt.argSecret args with
            | Some given => Some given
            | None => envSecret
            end) as [s|]; [|discriminate].
  rewrite isBlank_strlen in Hret.
  destruct (isBlank s) eqn:Hsb; [discriminate|].
  rewrite isBlank_strlen in Hret.
  destruct (isBlank (default "" (GenerateJwt.argEmailId args))) eqn:Heb; [discriminate|].
  destruct (GenerateJwt.parseInt10 _) as [|n|[|]]; try discriminate.
  destruct (n <=? 0) eqn:Hn; [discriminate|]. apply Z.leb_gt in Hn.
  injection Hret as <-.
  cbn [GenerateJwt.secret GenerateJwt.emailId GenerateJwt.expiresInSeconds].
  repeat split; assumption.
Qed.

(** The two ways a run ends: refused before anything is signed, or one
    signing call with the outcome reported. *)
Lemma runScript_cases (signJwt : GenerateJwt.Signer) (processArgv : list string)
  (envSecret : option string) (nowMs : Z) (terminal : GenerateJwt.Terminal) :
  GenerateJwt.runScript signJwt processArgv envSecret nowMs = Some terminal ->
  (exists message,
     GenerateJwt.parseOptions (GenerateJwt.parseArgs (skipn 2 processArgv)) envSecret
     = Some (GenerateJwt.ThrowsError message) /\
     terminal = GenerateJwt.mkTerminal [] [] [[JsString message]] (Some 1)) \/
  (exists options,
     GenerateJwt.parseOptions (GenerateJwt.parseArgs (skipn 2 processArgv)) envSecret
     = Some (GenerateJwt.Returns options) /\
     let issuedAt := nowMs / 1000 in
     let expiresAt := issuedAt + GenerateJwt.expiresInSeconds options in
     let payload :=
       [("email_id", JsString (GenerateJwt.emailId options));
        ("iat", JsNumber issuedAt); ("exp", JsNumber expiresAt)] in
     let key := textEncode (GenerateJwt.secret options) in
     let outcome :=
       signJwt payload [("alg", JsString "HS256"); ("typ", JsString "JWT")] key in
     GenerateJwt.signCalls terminal = [(payload, key)] /\
     ((exists token,
         outcome = GenerateJwt.SignResolves token /\
         GenerateJwt.stdout terminal
         = [[JsString "Email ID:"; JsString (GenerateJwt.emailId options)];
            [JsString "Issued At:"; JsNumber issuedAt];
            [JsString "Expires At:"; JsNumber expiresAt];
            [JsString "JWT:"; JsString token]] /\
         GenerateJwt.stderr terminal = [] /\
         GenerateJwt.exitCode terminal = None) \/
      (exists reason message,
         outcome = GenerateJwt.SignRejects reason /\
         GenerateJwt.stdout terminal = [] /\
         GenerateJwt.stderr terminal = [[JsString message]] /\
         GenerateJwt.exitCode terminal = Some 1))).
Proof.
  unfold GenerateJwt.runScript.
  destruct (GenerateJwt.parseOptions _ envSecret) as [[options|message]|];
    [| |discriminate].
  - intros Hrun. right. exists options. split; [reflexivity|]. cbv zeta.
    destruct (signJwt _ _ _) as [token|[message|]]; injection Hrun as <-;
      (split; [reflexivity|]).
    + left. exists token. repeat split.
    + right. exists (Some message), message. repeat split.
    + right. exists None, "Unknown error". repeat split.
  - intros [= <-]. left. exists message. split; reflexivity.
Qed.

(** X13. Whatever the command line, the script signs at most once, and what
    it signs is a token the worker can read: a non-blank [email_id], [iat]
    the current time in whole seconds and [exp] strictly later, under the
    UTF-8 bytes of a non-blank secret. *)
Theorem script_signs_well_formed_claims (signJwt : GenerateJwt.Signer)
  (processArgv : list string) (envSecret : option string) (nowMs : Z)
  (terminal : GenerateJwt.Terminal) :
  GenerateJwt.runScript signJwt processArgv envSecret nowMs = Some terminal ->
  GenerateJwt.signCalls terminal = [] \/
  exists id secret lifetime,
    GenerateJwt.signCalls terminal
    = [([("email_id", JsString id); ("iat", JsNumber (nowMs / 1000));
         ("exp", JsNumber (nowMs / 1000 + lifetime))],
        textEncode secret)] /\
    isBlank id = false /\ isBlank secret = false /\
    nowMs / 1000 < nowMs / 1000 + lifetime.
Proof.
  intros Hrun.
  destruct (runScript_cases _ _ _ _ _ Hrun)
    as [(message & _ & ->)|(options & Hopts & Hsigned & _)]; [left; reflexivity|].
  right.
  destruct (parseOptions_options_valid _ _ _ Hopts) as (Hsecret & Hid & Hlife).
  exists (GenerateJwt.emailId options), (GenerateJwt.secret options),
         (GenerateJwt.expiresInSeconds options).
  split; [exact Hsigned|]. split; [exact Hid|]. split; [exact Hsecret|]. lia.
Qed.

Lemma script_signs_well_formed_claims_witness :
  GenerateJwt.signCalls
    (GenerateJwt.mkTerminal
       [(Sample.payload, textEncode "test-secret")]
       [[JsString "Email ID:"; JsString "email-123"];
        [JsString "Issued At:"; JsNumber 1000];
        [JsString "Expires At:"; JsNumber 1120];
        [JsString "JWT:"; JsString "good"]]
       [] None) = [] \/
  exists id secret lifetime,
    [(Sample.payload, textEncode "test-secret")]
    = [([("email_id", JsString id); ("iat", JsNumber (1000000 / 1000));
         ("exp", JsNumber (1000000 / 1000 + lifetime))],
        textEncode secret)] /\
    isBlank id = false /\ isBlank secret = false /\
    1000000 / 1000 < 1000000 / 1000 + lifetime.
Proof.
  exact (script_signs_well_formed_claims GenerateJwt.sampleSigner GenerateJwt.sampleArgv
           None 1000000 _ eq_refl).
Defined.

(** X14. The script prints to standard output exactly when it leaves the
    exit code alone: a finished run either printed the four result lines,
    the token last, with nothing on standard error, or printed one message
    on standard error, nothing on standard output, and set the exit code to
    1. *)
Theorem script_reports_failure_by_exit_code (signJwt : GenerateJwt.Signer)
  (processArgv : list string) (envSecret : option string) (nowMs : Z)
  (terminal : GenerateJwt.Terminal) :
  GenerateJwt.runScript signJwt processArgv envSecret nowMs = Some terminal ->
  (GenerateJwt.exitCode terminal = None /\
   GenerateJwt.stderr terminal = [] /\
   exists id issued expires token,
     GenerateJwt.stdout terminal
     = [[JsString "Email ID:"; JsString id];
        [JsString "Issued At:"; JsNumber issued];
        [JsString "Expires At:"; JsNumber expires];
        [JsString "JWT:"; JsString token]]) \/
  (GenerateJwt.exitCode terminal = Some 1 /\
   GenerateJwt.stdout terminal = [] /\
   exists message, GenerateJwt.stderr terminal = [[JsString message]]).
Proof.
  intros Hrun.
  destruct (runScript_cases _ _ _ _ _ Hrun)
    as [(message & _ & ->)|(options & _ & _ & Hout)].
  { right. split; [reflexivity|]. split; [reflexivity|]. exists message. reflexivity. }
  cbv zeta in Hout.
  destruct Hout as [(token & _ & Hstdout & Hstderr & Hexit)
                   |(reason & message & _ & Hstdout & Hstderr & Hexit)].
  - left. split; [exact Hexit|]. split; [exact Hstderr|].
    eexists _, _, _, token. exact Hstdout.
  - right. split; [exact Hexit|]. split; [exact Hstdout|]. exists message. exact Hstderr.
Qed.

Lemma script_reports_failure_by_exit_code_witness :
  let terminal :=
    GenerateJwt.mkTerminal [] []
      [[JsString "Missing email id. Pass --email-id to continue."]] (Some 1) in
  (GenerateJwt.exitCode terminal = None /\
   GenerateJwt.stderr terminal = [] /\
   exists id issued expires token,
     GenerateJwt.stdout terminal
     = [[JsString "Email ID:"; JsString id];
        [JsString "Issued At:"; JsNumber issued];
        [JsString "Expires At:"; JsNumber expires];
        [JsString "JWT:"; JsString token]]) \/
  (GenerateJwt.exitCode terminal = Some 1 /\
   GenerateJwt.stdout terminal = [] /\
   exists message, GenerateJwt.stderr terminal = [[JsString message]]).
Proof.
  exact (script_reports_failure_by_exit_code GenerateJwt.sampleSigner
           ["bun"; "generate-jwt.ts"; "--secret"; "test-secret"] None 1000000 _ eq_refl).
Defined.

(** X15. A token the script signed is one the worker resolves: when the
    worker's trimmed secret encodes to the key the script signed with, and
    the verification library accepts the token with the payload that was
    signed, [resolveEmailId] returns the script's e-mail id, the issue time
    and a strictly later expiry. *)
Theorem script_token_resolves_in_worker (signJwt : GenerateJwt.Signer) (P : Platform)
  (processArgv : list string) (envSecret : option string) (nowMs : Z)
  (terminal : GenerateJwt.Terminal) (payload : list (string * JsValue)) (key : list Z)
  (token : string) (workerEnv : Env) (creds : Credentials) :
  GenerateJwt.runScript signJwt processArgv envSecret nowMs = Some terminal ->
  GenerateJwt.signCalls terminal = [(payload, key)] ->
  validateEnv workerEnv = Success creds ->
  textEncode (jwtSecret creds) = key ->
  jwtVerify P token key = JoseResolves payload ->
  exists id lifetime,
    resolveEmailId P token (jwtSecret creds)
    = Success (mkClaims id (nowMs / 1000) (nowMs / 1000 + lifetime)) /\
    isBlank id = false /\ 0 < lifetime.
Proof.
  intros Hrun Hsigned _ Hkey Hverify.
  destruct (runScript_cases _ _ _ _ _ Hrun)
    as [(message & _ & ->)|(options & Hopts & Hcalls & _)]; [discriminate Hsigned|].
  cbv zeta in Hcalls. rewrite Hcalls in Hsigned. injection Hsigned as <- <-.
  destruct (parseOptions_options_valid _ _ _ Hopts) as (_ & Hid & Hlife).
  exists (GenerateJwt.emailId options), (GenerateJwt.expiresInSeconds options).
  split; [|split; assumption].
  unfold resolveEmailId. rewrite Hkey, Hverify, extractEmailId_spec.
  cbn [getProp lookupProp String.eqb Ascii.eqb Bool.eqb default from_option id].
  destruct (String.eqb_spec (GenerateJwt.emailId options) "") as [Hempty|];
    [rewrite Hempty in Hid; discriminate Hid | reflexivity].
Qed.

Lemma script_token_resolves_in_worker_witness :
  exists id lifetime,
    resolveEmailId Sample.platform "good" "test-secret"
    = Success (mkClaims id (1000000 / 1000) (1000000 / 1000 + lifetime)) /\
    isBlank id = false /\ 0 < lifetime.
Proof.
  exact (script_token_resolves_in_worker GenerateJwt.sampleSigner Sample.platform
           GenerateJwt.sampleArgv None 1000000 _ Sample.payload
           (textEncode "test-secret") "good" Sample.env
           (mkCredentials "test-api-key" "test-secret")
           eq_refl eq_refl eq_refl eq_refl eq_refl).
Defined.

Lemma digit_start (c : ascii) (d : Z) (rest : string) :
  GenerateJwt.digitValue c = Some d ->
  GenerateJwt.parseInt10 (String c rest) =
  match GenerateJwt.leadingDigits (String c rest) with
  | [] => GenerateJwt.IntNaN
  | ds =>
      if GenerateJwt.digitsValue ds <=? 10 ^ 15
      then GenerateJwt.IntExact (GenerateJwt.digitsValue ds)
      else GenerateJwt.IntInexact false
  end.
Proof.
  destruct c as [[] [] [] [] [] [] [] []]; intros Hd;
    try discriminate Hd; reflexivity.
Qed.

Lemma leadingDigits_app (digits rest : string) :
  digitsOnly digits = true ->
  GenerateJwt.leadingDigits (digits +:+ rest)
  = GenerateJwt.leadingDigits digits ++ GenerateJwt.leadingDigits rest.
Proof.
  induction digits as [|c digits IH]; [reflexivity|].
  cbn [digitsOnly]. intros Hall. apply andb_prop in Hall as [Hc Hrest].
  apply bool_decide_eq_true in Hc as [d Hd].
  change (String c digits +:+ rest) with (String c (digits +:+ rest)).
  cbn [GenerateJwt.leadingDigits]. rewrite Hd, (IH Hrest). reflexivity.
Qed.

(** X16. Text after the digits of [--expires-in] is ignored: a value made
    of decimal digits followed by anything that does not start with a digit
    (a unit, a fraction, a stray word) is treated as the digits alone. *)
Theorem expires_in_ignores_trailing_text (args : GenerateJwt.ParsedArgs)
  (envSecret : option string) (digits trailing : string) :
  digits <> "" ->
  digitsOnly digits = true ->
  GenerateJwt.leadingDigits trailing = [] ->
  GenerateJwt.parseOptions (withExpiresIn (digits +:+ trailing) args) envSecret
  = GenerateJwt.parseOptions (withExpiresIn digits args) envSecret.
Proof.
  intros Hne Hall Htrail.
  assert (Hint : GenerateJwt.parseInt10 (digits +:+ trailing)
                 = GenerateJwt.parseInt10 digits).
  { destruct digits as [|c digits]; [contradiction|].
    pose proof Hall as Hall'. cbn [digitsOnly] in Hall'.
    apply andb_prop in Hall' as [Hc _]. apply bool_decide_eq_true in Hc as [d Hd].
    change (String c digits +:+ trailing) with (String c (digits +:+ trailing)).
    rewrite !(digit_start c d _ Hd).
    change (String c (digits +:+ trailing)) with (String c digits +:+ trailing).
    rewrite (leadingDigits_app _ trailing Hall), Htrail, app_nil_r. reflexivity. }
  unfold GenerateJwt.parseOptions, withExpiresIn.
  cbn [GenerateJwt.argSecret GenerateJwt.argEmailId GenerateJwt.argExpiresIn
       default from_option id].
  rewrite Hint. reflexivity.
Qed.

Lemma expires_in_ignores_trailing_text_witness :
  let args := GenerateJwt.parseArgs ["--secret"; "test-secret"; "--email-id"; "email-123"] in
  GenerateJwt.parseOptions (withExpiresIn "15m" args) None
  = Some (GenerateJwt.Returns (GenerateJwt.mkScriptOptions "test-secret" "email-123" 15)).
Proof.
  cbv zeta.
  refine (eq_trans
            (expires_in_ignores_trailing_text
               (GenerateJwt.parseArgs
                  ["--secret"; "test-secret"; "--email-id"; "email-123"])
               None "15" "m" _ eq_refl eq_refl)
            eq_refl).
  discriminate.
Defined.

(** * The provider's words reach the client *)

(** X17. When the provider reports an error with a string message for a
    verified request, that message is the body of the 502 answer, word for
    word. *)
Theorem provider_error_message_reaches_client (P : Platform) (request : Request)
  (env : Env) (w : World) (creds : Credentials) (token : string) (claims : Claims)
  (result : JsValue) (message : string) :
  cacheMiss request w ->
  validateEnv env = Success creds ->
  extractTokenFromRequest P request = Success token ->
  resolveEmailId P token (jwtSecret creds) = Success claims ->
  resendEmailsGet P (apiKey creds) (emailId claims) = ProviderResolves result ->
  errorMessage (getProp result "error") = Some message ->
  fst (handler P request env w)
  = mkResponse message 502 [("content-type", "text/plain; charset=utf-8")].
Proof.
  intros Hmiss Henv Htok Hres Hcall Hmsg.
  rewrite (handler_miss P env Hmiss), Henv, Htok, Hres, fetchEmailHtml_result, Hcall.
  assert (Hobj : exists props, getProp result "error" = JsObject props).
  { destruct (getProp result "error") as [| | b | n | s | props]; try discriminate Hmsg.
    exists props. reflexivity. }
  destruct Hobj as [props Herr].
  assert (Hresult : isNullish result = false).
  { destruct result; try reflexivity; discriminate Herr. }
  rewrite Hresult, Hmsg, Herr. reflexivity.
Qed.

Lemma provider_error_message_reaches_client_witness :
  fst (handler failingProviderPlatform (Sample.get Sample.link) Sample.env Sample.world)
  = mkResponse "Rate limit exceeded" 502 [("content-type", "text/plain; charset=utf-8")].
Proof.
  exact (provider_error_message_reaches_client failingProviderPlatform
           (Sample.get Sample.link) Sample.env Sample.world
           (mkCredentials "test-api-key" "test-secret") "good"
           (mkClaims "email-123" 1000 1120) _ "Rate limit exceeded"
           eq_refl eq_refl eq_refl eq_refl eq_refl eq_refl).
Defined.
